(** * The real-time client synchronisation layer of the PyGent Factory UI

    A shallow embedding of

    - [src/stores/appStore.ts]: the zustand store ([Module Store]), and
    - [src/services/websocket.ts]: the [WebSocketService] class, that is the
      event bus ([on], [off], [emit]) and the transport session ([connect],
      [disconnect], [handleReconnect] and the socket callbacks)
      ([Module WebSocketService]),

    followed by the properties of these operations.

    Conventions.  A JavaScript object is a finite map from property names to
    values ([gmap string Value]); the object spread [{...a, ...b}] is the
    right-biased union of the two maps.  A JavaScript [Map] is a [gmap], a
    [Set] a [gset], an array a [list].  Numbers are rationals: every number
    the modelled code computes with is an integer or an exact decimal. *)

From Stdlib Require Import ZArith QArith.
From stdpp Require Import gmap strings list fin_maps.

Set Warnings "-register-all,-abstract-large-number,-clear-no-such-hyp".
Set Default Proof Using "Type".

(* ===================================================================== *)
(** * JavaScript values *)
(* ===================================================================== *)

Inductive Value : Type :=
| VUndefined
| VNull
| VBool (b : bool)
| VNum (q : Q)
| VStr (s : string)
| VArr (l : list Value)
| VObj (o : gmap string Value).

(** An object, seen from the code that reads and spreads its properties. *)
Abbreviation Obj := (gmap string Value).

(** [{...a, ...b}]: the own properties of [a], then those of [b], which
    overwrite the ones [a] already has. *)
Definition spread (a b : Obj) : Obj := b ∪ a.

(** [o.id === i] for a string [i]: strict equality, so a missing [id] or an
    [id] that is not a string is different from every [i]. *)
Definition id_is (i : string) (o : Obj) : bool :=
  match o !! "id" with
  | Some (VStr s) => bool_decide (s = i)
  | _ => false
  end.

(** [x || []] for an array [x] that may be [undefined]: an array, even an
    empty one, is truthy. *)
Definition or_empty {A : Type} (x : option (list A)) : list A :=
  match x with
  | Some l => l
  | None => []
  end.

Definition VInt (z : Z) : Value := VNum (inject_Z z).

(* ===================================================================== *)
(** * The store: [src/stores/appStore.ts] *)
(* ===================================================================== *)

Module Store.

(** The data fields of [AppState].  The records the actions below do not
    look into ([User], [UIState], the metrics) stay plain objects. *)
Record AppState : Type := mkAppState {
  user : option Obj;
  isAuthenticated : bool;
  conversations : gmap string (list Obj);
  activeConversation : string;
  typingUsers : gset string;
  reasoningState : Obj;
  evolutionState : Obj;
  searchMetrics : option Obj;
  indexStatus : option Obj;
  systemMetrics : option Obj;
  mcpServers : list Obj;
  ui : Obj
}.

(** zustand's [set(partial)] replaces the fields named in [partial] and
    keeps the others: one setter for each field the modelled actions write. *)
Definition set_conversations (c : gmap string (list Obj)) (s : AppState) : AppState :=
  {| user := user s; isAuthenticated := isAuthenticated s;
     conversations := c;
     activeConversation := activeConversation s; typingUsers := typingUsers s;
     reasoningState := reasoningState s; evolutionState := evolutionState s;
     searchMetrics := searchMetrics s; indexStatus := indexStatus s;
     systemMetrics := systemMetrics s; mcpServers := mcpServers s; ui := ui s |}.

Definition set_activeConversation (a : string) (s : AppState) : AppState :=
  {| user := user s; isAuthenticated := isAuthenticated s;
     conversations := conversations s;
     activeConversation := a; typingUsers := typingUsers s;
     reasoningState := reasoningState s; evolutionState := evolutionState s;
     searchMetrics := searchMetrics s; indexStatus := indexStatus s;
     systemMetrics := systemMetrics s; mcpServers := mcpServers s; ui := ui s |}.

Definition set_typingUsers (t : gset string) (s : AppState) : AppState :=
  {| user := user s; isAuthenticated := isAuthenticated s;
     conversations := conversations s;
     activeConversation := activeConversation s; typingUsers := t;
     reasoningState := reasoningState s; evolutionState := evolutionState s;
     searchMetrics := searchMetrics s; indexStatus := indexStatus s;
     systemMetrics := systemMetrics s; mcpServers := mcpServers s; ui := ui s |}.

Definition set_reasoningState (r : Obj) (s : AppState) : AppState :=
  {| user := user s; isAuthenticated := isAuthenticated s;
     conversations := conversations s;
     activeConversation := activeConversation s; typingUsers := typingUsers s;
     reasoningState := r; evolutionState := evolutionState s;
     searchMetrics := searchMetrics s; indexStatus := indexStatus s;
     systemMetrics := systemMetrics s; mcpServers := mcpServers s; ui := ui s |}.

Definition set_evolutionState (e : Obj) (s : AppState) : AppState :=
  {| user := user s; isAuthenticated := isAuthenticated s;
     conversations := conversations s;
     activeConversation := activeConversation s; typingUsers := typingUsers s;
     reasoningState := reasoningState s; evolutionState := e;
     searchMetrics := searchMetrics s; indexStatus := indexStatus s;
     systemMetrics := systemMetrics s; mcpServers := mcpServers s; ui := ui s |}.

Definition set_systemMetrics (m : option Obj) (s : AppState) : AppState :=
  {| user := user s; isAuthenticated := isAuthenticated s;
     conversations := conversations s;
     activeConversation := activeConversation s; typingUsers := typingUsers s;
     reasoningState := reasoningState s; evolutionState := evolutionState s;
     searchMetrics := searchMetrics s; indexStatus := indexStatus s;
     systemMetrics := m; mcpServers := mcpServers s; ui := ui s |}.

Definition set_mcpServers (l : list Obj) (s : AppState) : AppState :=
  {| user := user s; isAuthenticated := isAuthenticated s;
     conversations := conversations s;
     activeConversation := activeConversation s; typingUsers := typingUsers s;
     reasoningState := reasoningState s; evolutionState := evolutionState s;
     searchMetrics := searchMetrics s; indexStatus := indexStatus s;
     systemMetrics := systemMetrics s; mcpServers := l; ui := ui s |}.

(** ** Initial values *)

Definition initialReasoningState : Obj :=
  list_to_map
    [ ("isActive", VBool false); ("thoughts", VArr []);
      ("processingTime", VInt 0); ("confidence", VInt 0);
      ("pathsExplored", VInt 0); ("mode", VStr "adaptive");
      ("complexity", VStr "moderate") ].

Definition initialEvolutionState : Obj :=
  list_to_map
    [ ("isRunning", VBool false); ("currentGeneration", VInt 0);
      ("maxGenerations", VInt 100); ("populationSize", VInt 20);
      ("bestRecipes", VArr []); ("fitnessHistory", VArr []);
      ("convergenceMetrics",
        VObj (list_to_map
          [ ("rate", VInt 0); ("plateau_generations", VInt 0);
            ("improvement_threshold", VNum (1 # 100));
            ("is_converged", VBool false) ]));
      ("elapsedTime", VInt 0) ].

Definition initialUIState : Obj :=
  list_to_map
    [ ("sidebarOpen", VBool true); ("activeView", VStr "chat");
      ("theme", VStr "system"); ("notifications", VArr []);
      ("loading",
        VObj (list_to_map
          [ ("global", VBool false); ("chat", VBool false);
            ("reasoning", VBool false); ("evolution", VBool false);
            ("search", VBool false); ("mcp", VBool false);
            ("ollama", VBool false) ])) ].

Definition initialState : AppState :=
  {| user := None; isAuthenticated := false;
     conversations := {[ "default" := [] ]};
     activeConversation := "default"; typingUsers := ∅;
     reasoningState := initialReasoningState;
     evolutionState := initialEvolutionState;
     searchMetrics := None; indexStatus := None; systemMetrics := None;
     mcpServers := []; ui := initialUIState |}.

(** ** Chat actions *)

(** [addMessage]: copy the map, read the conversation ([|| []] when it is
    absent), store the list extended by the message. *)
Definition addMessage (conversationId : string) (message : Obj) (s : AppState)
  : AppState :=
  let conversations := conversations s in
  let messages := or_empty (conversations !! conversationId) in
  set_conversations (<[conversationId := messages ++ [message]]> conversations) s.

(** [updateMessage]: copy the map, read the conversation ([|| []]), map
    over its messages spreading [updates] into those whose id matches, and
    store the mapped list under [conversationId]. *)
Definition updateMessage (conversationId messageId : string) (updates : Obj)
    (s : AppState) : AppState :=
  let conversations := conversations s in
  let messages := or_empty (conversations !! conversationId) in
  let updatedMessages :=
    (fun msg : Obj => if id_is messageId msg then spread msg updates else msg)
      <$> messages in
  set_conversations (<[conversationId := updatedMessages]> conversations) s.

(** [setActiveConversation]: add an empty conversation when the map has
    none for the id, then store the id and a copy of the map.  (The source
    adds the entry to the current map object before it copies it; this is
    the state of the store after the call.) *)
Definition setActiveConversation (activeConversation : string) (s : AppState)
  : AppState :=
  let conversations := conversations s in
  let conversations :=
    if decide (is_Some (conversations !! activeConversation))
    then conversations
    else <[activeConversation := []]> conversations in
  set_activeConversation activeConversation (set_conversations conversations s).

Definition clearConversation (conversationId : string) (s : AppState) : AppState :=
  set_conversations (<[conversationId := []]> (conversations s)) s.

Definition setTypingUser (userId : string) (typing : bool) (s : AppState)
  : AppState :=
  set_typingUsers
    (if typing then typingUsers s ∪ {[ userId ]} else typingUsers s ∖ {[ userId ]}) s.

(** ** Reasoning and evolution actions *)

Definition updateReasoningState (updates : Obj) (s : AppState) : AppState :=
  set_reasoningState (spread (reasoningState s) updates) s.

Definition resetReasoningState (s : AppState) : AppState :=
  set_reasoningState initialReasoningState s.

Definition updateEvolutionState (updates : Obj) (s : AppState) : AppState :=
  set_evolutionState (spread (evolutionState s) updates) s.

Definition resetEvolutionState (s : AppState) : AppState :=
  set_evolutionState initialEvolutionState s.

(** ** System actions *)

Definition updateSystemMetrics (m : Obj) (s : AppState) : AppState :=
  set_systemMetrics (Some m) s.

Definition updateMCPServers (servers : list Obj) (s : AppState) : AppState :=
  set_mcpServers servers s.

(** [updateMCPServer]: map over the array of servers, spreading [updates]
    into those whose id matches. *)
Definition updateMCPServer (serverId : string) (updates : Obj) (s : AppState)
  : AppState :=
  set_mcpServers
    ((fun server : Obj =>
        if id_is serverId server then spread server updates else server)
       <$> mcpServers s) s.

(** What the arrow functions of [updateMessage] and [updateMCPServer] do to
    one element: [o.id === i ? { ...o, ...updates } : o]. *)
Definition merge_if (i : string) (updates : Obj) (o : Obj) : Obj :=
  if id_is i o then spread o updates else o.

(** ** Sample values *)

Definition sample_m1 : Obj :=
  list_to_map [("id", VStr "m1"); ("type", VStr "user"); ("content", VStr "hi")].

Definition sample_m2 : Obj :=
  list_to_map [("id", VStr "m2"); ("type", VStr "agent"); ("content", VStr "hello")].

Definition sample_server : Obj :=
  list_to_map [("id", VStr "fs"); ("status", VStr "stopped")].

(** A sequence of [addMessage] calls on one conversation, in call order. *)
Definition addMessages (conversationId : string) (ms : list Obj) (s : AppState)
  : AppState :=
  foldl (fun st m => addMessage conversationId m st) s ms.

(** ** Authentication, search and the remaining setters *)

Definition set_user (u : option Obj) (s : AppState) : AppState :=
  {| user := u; isAuthenticated := isAuthenticated s;
     conversations := conversations s;
     activeConversation := activeConversation s; typingUsers := typingUsers s;
     reasoningState := reasoningState s; evolutionState := evolutionState s;
     searchMetrics := searchMetrics s; indexStatus := indexStatus s;
     systemMetrics := systemMetrics s; mcpServers := mcpServers s; ui := ui s |}.

Definition set_isAuthenticated (b : bool) (s : AppState) : AppState :=
  {| user := user s; isAuthenticated := b;
     conversations := conversations s;
     activeConversation := activeConversation s; typingUsers := typingUsers s;
     reasoningState := reasoningState s; evolutionState := evolutionState s;
     searchMetrics := searchMetrics s; indexStatus := indexStatus s;
     systemMetrics := systemMetrics s; mcpServers := mcpServers s; ui := ui s |}.

Definition set_searchMetrics (m : option Obj) (s : AppState) : AppState :=
  {| user := user s; isAuthenticated := isAuthenticated s;
     conversations := conversations s;
     activeConversation := activeConversation s; typingUsers := typingUsers s;
     reasoningState := reasoningState s; evolutionState := evolutionState s;
     searchMetrics := m; indexStatus := indexStatus s;
     systemMetrics := systemMetrics s; mcpServers := mcpServers s; ui := ui s |}.

Definition set_indexStatus (m : option Obj) (s : AppState) : AppState :=
  {| user := user s; isAuthenticated := isAuthenticated s;
     conversations := conversations s;
     activeConversation := activeConversation s; typingUsers := typingUsers s;
     reasoningState := reasoningState s; evolutionState := evolutionState s;
     searchMetrics := searchMetrics s; indexStatus := m;
     systemMetrics := systemMetrics s; mcpServers := mcpServers s; ui := ui s |}.

Definition set_ui (u : Obj) (s : AppState) : AppState :=
  {| user := user s; isAuthenticated := isAuthenticated s;
     conversations := conversations s;
     activeConversation := activeConversation s; typingUsers := typingUsers s;
     reasoningState := reasoningState s; evolutionState := evolutionState s;
     searchMetrics := searchMetrics s; indexStatus := indexStatus s;
     systemMetrics := systemMetrics s; mcpServers := mcpServers s; ui := u |}.

Definition setUser (u : option Obj) (s : AppState) : AppState := set_user u s.

Definition setAuthenticated (b : bool) (s : AppState) : AppState :=
  set_isAuthenticated b s.

Definition updateSearchMetrics (m : Obj) (s : AppState) : AppState :=
  set_searchMetrics (Some m) s.

Definition updateIndexStatus (m : Obj) (s : AppState) : AppState :=
  set_indexStatus (Some m) s.

(** ** UI actions *)

(** [{ ...get().ui, activeView }] and its two siblings. *)
Definition setActiveView (activeView : string) (s : AppState) : AppState :=
  set_ui (spread (ui s) {[ "activeView" := VStr activeView ]}) s.

Definition setSidebarOpen (sidebarOpen : bool) (s : AppState) : AppState :=
  set_ui (spread (ui s) {[ "sidebarOpen" := VBool sidebarOpen ]}) s.

Definition setTheme (theme : string) (s : AppState) : AppState :=
  set_ui (spread (ui s) {[ "theme" := VStr theme ]}) s.

(** [ui.notifications], an array in every state of type [UIState]; the
    actions below are read on such states. *)
Definition notifications_of (u : Obj) : list Value :=
  match u !! "notifications" with
  | Some (VArr l) => l
  | _ => []
  end.

(** [n.id === id] for an element of the array. *)
Definition notification_id_is (id : string) (n : Value) : bool :=
  match n with
  | VObj o => id_is id o
  | _ => false
  end.

(** [addNotification]: the caller's fields, then the generated [id], the
    [timestamp] and [read: false], which overwrite what the caller passed;
    the result is appended.  The id (made of [Date.now()] and
    [Math.random()]) and the date are inputs. *)
Definition addNotification (notification : Obj) (newId : string) (timestamp : Value)
    (s : AppState) : AppState :=
  let newNotification : Obj :=
    spread notification
      (list_to_map
         [ ("id", VStr newId); ("timestamp", timestamp); ("read", VBool false) ]) in
  set_ui
    (spread (ui s)
       {[ "notifications" :=
            VArr (notifications_of (ui s) ++ [VObj newNotification]) ]}) s.

(** [removeNotification]: [filter(n => n.id !== id)]. *)
Definition removeNotification (id : string) (s : AppState) : AppState :=
  set_ui
    (spread (ui s)
       {[ "notifications" :=
            VArr (List.filter (fun n => negb (notification_id_is id n))
                    (notifications_of (ui s))) ]}) s.

(** [markNotificationRead]: [map(n => n.id === id ? { ...n, read: true } : n)]. *)
Definition markNotificationRead (id : string) (s : AppState) : AppState :=
  set_ui
    (spread (ui s)
       {[ "notifications" :=
            VArr ((fun n =>
                     match n with
                     | VObj o =>
                         if id_is id o
                         then VObj (spread o {[ "read" := VBool true ]})
                         else n
                     | _ => n
                     end) <$> notifications_of (ui s)) ]}) s.

(** The own properties an object spread copies from [ui.loading]: those of
    the object; none from [undefined], [null], a boolean or a number. *)
Definition loading_of (u : Obj) : Obj :=
  match u !! "loading" with
  | Some (VObj l) => l
  | _ => ∅
  end.

(** [setLoading]: [{ ...ui, loading: { ...ui.loading, [component]: loading } }]. *)
Definition setLoading (component : string) (loading : bool) (s : AppState)
  : AppState :=
  set_ui
    (spread (ui s)
       {[ "loading" :=
            VObj (spread (loading_of (ui s)) {[ component := VBool loading ]}) ]}) s.

(** [partialize]: what the [persist] middleware writes to storage. *)
Definition partialize (s : AppState) : Obj :=
  list_to_map
    [ ("user", match user s with Some u => VObj u | None => VNull end);
      ("isAuthenticated", VBool (isAuthenticated s));
      ("ui",
        VObj (spread (ui s)
                (list_to_map
                   [ ("notifications", VArr []);
                     ("loading", default VUndefined (initialUIState !! "loading")) ]))) ].

(** The ids of the notifications, [None] for an element without a string
    id. *)
Definition notification_ids (u : Obj) : list (option string) :=
  (fun n => match n with
            | VObj o => match o !! "id" with Some (VStr i) => Some i | _ => None end
            | _ => None
            end) <$> notifications_of u.

(** A sample notification, as a caller passes it. *)
Definition sample_notification : Obj :=
  list_to_map
    [ ("type", VStr "info"); ("title", VStr "Saved"); ("message", VStr "ok");
      ("read", VBool true) ].

End Store.

(* ===================================================================== *)
(** * The WebSocket service: [src/services/websocket.ts] *)
(* ===================================================================== *)

Module WebSocketService.

(** ** The world around the service *)

(** [WebSocket.readyState]. *)
Inductive ReadyState : Type := CONNECTING | OPEN | CLOSING | CLOSED.

#[global] Instance ReadyState_eq_dec : EqDecision ReadyState.
Proof. solve_decision. Defined.

(** A handler is a function object: the service compares handlers by
    identity ([indexOf]) and calls them.  A reference stands for the
    object; what a call does is given by the environment: the calls the
    handler makes into the service while it runs, and whether it then
    returns or throws. *)
Abbreviation HandlerRef := nat.

(** How a call of a handler ends. *)
Inductive Outcome : Type := Returns | Throws (error : Value).

(** The calls of the public senders. *)
Inductive Intent : Type :=
| ChatMessage (message : Obj)
| StartReasoning (config : Obj)
| StopReasoning
| StartEvolution (config : Obj)
| StopEvolution
| RequestSystemMetrics
| ManageMCPServer (action serverId : string).

(** What a handler can do to the service while it runs: call one of its
    public methods.  [DoUnsubscribe event handler] is a call of the
    function that [on(event, handler)] returned. *)
Inductive Call : Type :=
| DoOn (event : string) (handler : HandlerRef)
| DoUnsubscribe (event : string) (handler : HandlerRef)
| DoOff (event : string) (handler : option HandlerRef)
| DoDisconnect
| DoConnect (u : string)
| DoSend (i : Intent).

Record Env : Type := mkEnv {
  (** how a call of each handler on each payload ends *)
  call : HandlerRef -> Value -> Outcome;
  (** the calls it makes into the service before that, in order *)
  reenters : HandlerRef -> Value -> list Call;
  (** [import.meta.env.VITE_WS_URL] *)
  VITE_WS_URL : option string;
  (** [window.location.protocol] and [window.location.host] *)
  location_protocol : string;
  location_host : string;
  (** whether [new WebSocket(url)] returns a socket rather than throwing *)
  accepts : string -> bool;
  (** [new Date().toISOString()]; the service only copies it into frames *)
  now : string
}.

(** Every [WebSocket] object records the URL it was made for, its
    [readyState], and the promise its [onopen] and [onerror] callbacks
    settle (the [resolve] and [reject] they close over). *)
Record Socket : Type := mkSocket {
  sock_url : string;
  readyState : ReadyState;
  sock_promise : nat
}.

Inductive PromiseState : Type :=
| Pending
| Fulfilled
| Rejected (reason : string).

(** The callbacks the service hands to [setTimeout]. *)
Inductive Callback : Type :=
| Reconnect                      (* the arrow function of [handleReconnect] *)
| CheckConnection (p : nat)      (* [checkConnection] of the [connect] call with promise [p] *)
| RejectUnlessOpen (p : nat).    (* the arrow function of [onerror] *)

Inductive Level : Type := WARN | ERROR.

(** What the service does to the outside, in the order it does it. *)
Inductive Obs : Type :=
| Called (handler : HandlerRef) (data : Value)    (* [handler(data)] *)
| Console (level : Level) (text : string) (args : list Value)
| Sent (sock : nat) (type : string) (data : Value) (* [ws.send(JSON.stringify({type, data}))] *)
| Emit (event : string) (data : Value).           (* entry into [emit]: kept by the model, the source writes nothing *)

(** ** The state *)

(** The private fields of the class ([maxReconnectAttempts] and
    [reconnectDelay] are never assigned, they are constants below),
    followed by the state of the browser objects the service created:
    sockets (in creation order; [ws] is the index of one of them),
    promises, pending timers with their delay, and the trace of effects.
    [console.log] lines are not recorded; [console.warn] and
    [console.error] are. *)
Record Service : Type := mkService {
  ws : option nat;
  eventHandlers : gmap string (list HandlerRef);
  reconnectAttempts : nat;
  isConnecting : bool;
  url : string;
  sockets : list Socket;
  promises : list PromiseState;
  timers : list (nat * Callback);
  trace : list Obs
}.

Definition maxReconnectAttempts : nat := 5.
Definition reconnectDelay : nat := 1000.

Definition set_ws (x : option nat) (s : Service) : Service :=
  {| ws := x; eventHandlers := eventHandlers s;
     reconnectAttempts := reconnectAttempts s; isConnecting := isConnecting s;
     url := url s; sockets := sockets s; promises := promises s;
     timers := timers s; trace := trace s |}.

Definition set_eventHandlers (x : gmap string (list HandlerRef)) (s : Service)
  : Service :=
  {| ws := ws s; eventHandlers := x;
     reconnectAttempts := reconnectAttempts s; isConnecting := isConnecting s;
     url := url s; sockets := sockets s; promises := promises s;
     timers := timers s; trace := trace s |}.

Definition set_reconnectAttempts (x : nat) (s : Service) : Service :=
  {| ws := ws s; eventHandlers := eventHandlers s;
     reconnectAttempts := x; isConnecting := isConnecting s;
     url := url s; sockets := sockets s; promises := promises s;
     timers := timers s; trace := trace s |}.

Definition set_isConnecting (x : bool) (s : Service) : Service :=
  {| ws := ws s; eventHandlers := eventHandlers s;
     reconnectAttempts := reconnectAttempts s; isConnecting := x;
     url := url s; sockets := sockets s; promises := promises s;
     timers := timers s; trace := trace s |}.

Definition set_url (x : string) (s : Service) : Service :=
  {| ws := ws s; eventHandlers := eventHandlers s;
     reconnectAttempts := reconnectAttempts s; isConnecting := isConnecting s;
     url := x; sockets := sockets s; promises := promises s;
     timers := timers s; trace := trace s |}.

Definition set_sockets (x : list Socket) (s : Service) : Service :=
  {| ws := ws s; eventHandlers := eventHandlers s;
     reconnectAttempts := reconnectAttempts s; isConnecting := isConnecting s;
     url := url s; sockets := x; promises := promises s;
     timers := timers s; trace := trace s |}.

Definition set_promises (x : list PromiseState) (s : Service) : Service :=
  {| ws := ws s; eventHandlers := eventHandlers s;
     reconnectAttempts := reconnectAttempts s; isConnecting := isConnecting s;
     url := url s; sockets := sockets s; promises := x;
     timers := timers s; trace := trace s |}.

Definition set_timers (x : list (nat * Callback)) (s : Service) : Service :=
  {| ws := ws s; eventHandlers := eventHandlers s;
     reconnectAttempts := reconnectAttempts s; isConnecting := isConnecting s;
     url := url s; sockets := sockets s; promises := promises s;
     timers := x; trace := trace s |}.

Definition set_trace (x : list Obs) (s : Service) : Service :=
  {| ws := ws s; eventHandlers := eventHandlers s;
     reconnectAttempts := reconnectAttempts s; isConnecting := isConnecting s;
     url := url s; sockets := sockets s; promises := promises s;
     timers := timers s; trace := x |}.

(** ** Computations: state and exceptions *)

(** A piece of the service's code runs on the state and either completes
    with a value or throws; the state it has written stays written. *)
Inductive Result (A : Type) : Type :=
| Ok (a : A)
| Thrown (error : Value).
Arguments Ok {A} a.
Arguments Thrown {A} error.

Definition M (A : Type) : Type := Service -> Service * Result A.

Definition ret {A : Type} (a : A) : M A := fun s => (s, Ok a).

Definition bind {A B : Type} (m : M A) (k : A -> M B) : M B :=
  fun s =>
    match m s with
    | (s', Ok a) => k a s'
    | (s', Thrown e) => (s', Thrown e)
    end.

Definition throw {A : Type} (e : Value) : M A := fun s => (s, Thrown e).

(** [try { m } catch (error) { h error }] *)
Definition try_catch {A : Type} (m : M A) (h : Value -> M A) : M A :=
  fun s =>
    match m s with
    | (s', Ok a) => (s', Ok a)
    | (s', Thrown e) => h e s'
    end.

Definition get : M Service := fun s => (s, Ok s).
Definition modify (f : Service -> Service) : M unit := fun s => (f s, Ok tt).

Declare Scope svc_scope.
Delimit Scope svc_scope with svc.
Notation "x <- m ;; k" := (bind m (fun x => k))
  (at level 100, m at next level, right associativity) : svc_scope.
Notation "m ;;; k" := (bind m (fun _ => k))
  (at level 100, right associativity) : svc_scope.
Open Scope svc_scope.

Definition observe (o : Obs) : M unit :=
  modify (fun s => set_trace (trace s ++ [o]) s).

Definition console (lv : Level) (text : string) (args : list Value) : M unit :=
  observe (Console lv text args).

(** [setTimeout(cb, delay)] *)
Definition setTimeout (cb : Callback) (delay : nat) : M unit :=
  modify (fun s => set_timers (timers s ++ [(delay, cb)]) s).

(** [this.ws?.readyState] *)
Definition ws_readyState (s : Service) : option ReadyState :=
  i ← ws s; readyState <$> sockets s !! i.

(** [isConnected()]: [this.ws?.readyState === WebSocket.OPEN] *)
Definition isConnected (s : Service) : bool :=
  bool_decide (ws_readyState s = Some OPEN).

Definition getConnectionState (s : Service) : bool * nat * bool :=
  (isConnected s, reconnectAttempts s, isConnecting s).

(** Promises: [new Promise], [resolve(true)], [reject(new Error(msg))].
    A settled promise ignores further settlements. *)
Definition new_promise : M nat :=
  fun s => (set_promises (promises s ++ [Pending]) s, Ok (length (promises s))).

Definition settle (p : nat) (st : PromiseState) : M unit :=
  modify (fun s =>
    match promises s !! p with
    | Some Pending => set_promises (<[p := st]> (promises s)) s
    | _ => s
    end).

Definition resolve (p : nat) : M unit := settle p Fulfilled.
Definition reject (p : nat) (msg : string) : M unit := settle p (Rejected msg).

Section Methods.

Variable env : Env.

(** ** The event bus *)

(** The seventeen event types [setupEventHandlers] gives an empty array. *)
Definition eventTypes : list string :=
  [ "connection_status"; "connection_error"; "connection_failed";
    "chat_response"; "typing_indicator"; "reasoning_update";
    "reasoning_complete"; "evolution_progress"; "evolution_complete";
    "system_metrics"; "system_alert"; "mcp_server_status";
    "mcp_server_health"; "ollama_status"; "ollama_model_update";
    "ollama_metrics"; "ollama_error" ].

Definition setupEventHandlers (s : Service) : Service :=
  foldl (fun st eventType =>
           set_eventHandlers (<[eventType := []]> (eventHandlers st)) st)
        s eventTypes.

(** [new WebSocketService()] *)
Definition initial : Service :=
  setupEventHandlers
    {| ws := None; eventHandlers := ∅; reconnectAttempts := 0;
       isConnecting := false; url := ""; sockets := []; promises := [];
       timers := []; trace := [] |}.

(** [Array.prototype.indexOf]: the first position holding the handler. *)
Fixpoint indexOf (handler : HandlerRef) (l : list HandlerRef) : option nat :=
  match l with
  | [] => None
  | h :: l' => if decide (h = handler) then Some 0 else S <$> indexOf handler l'
  end.

(** [on]: push the handler on the event's array ([|| []] when the map has
    none) and store the array.  The function [on] returns is
    [unsubscribe event handler] below. *)
Definition on (event : string) (handler : HandlerRef) (s : Service) : Service :=
  let handlers := or_empty (eventHandlers s !! event) in
  set_eventHandlers (<[event := handlers ++ [handler]]> (eventHandlers s)) s.

(** The closure returned by [on(event, handler)]: look the handler up in
    the event's current array and, when it is there, splice that one
    position out; otherwise leave the map as it is. *)
Definition unsubscribe (event : string) (handler : HandlerRef) (s : Service)
  : Service :=
  let currentHandlers := or_empty (eventHandlers s !! event) in
  match indexOf handler currentHandlers with
  | Some index =>
      set_eventHandlers
        (<[event := delete index currentHandlers]> (eventHandlers s)) s
  | None => s
  end.

(** [off]: without a handler, empty the event's array; with one, as
    [unsubscribe]. *)
Definition off (event : string) (handler : option HandlerRef) (s : Service)
  : Service :=
  match handler with
  | None => set_eventHandlers (<[event := []]> (eventHandlers s)) s
  | Some h => unsubscribe event h s
  end.

(** The handlers of an event: the event's array, [[]] when the map has
    none. *)
Definition registered (event : string) (s : Service) : list HandlerRef :=
  or_empty (eventHandlers s !! event).

(** ** The transport session *)

(** [sendMessage]: warn and return unless [ws] is set and open; otherwise
    hand the frame to the socket. *)
Definition sendMessage (type : string) (data : Value) : M unit :=
  s <- get ;;
  match ws s with
  | Some i =>
      if decide (readyState <$> sockets s !! i = Some OPEN)
      then observe (Sent i type data)
      else console WARN
             ("Cannot send message '" ++ type ++ "' - WebSocket not connected") []
  | None =>
      console WARN
        ("Cannot send message '" ++ type ++ "' - WebSocket not connected") []
  end.

(** ** The public senders *)

(** [{ ...config, timestamp: new Date() }], the date as [JSON.stringify]
    writes it. *)
Definition stamped (config : Obj) : Value :=
  VObj (spread config {[ "timestamp" := VStr (now env) ]}).

Definition sendChatMessage (message : Obj) : M unit :=
  sendMessage "chat_message"
    (VObj (list_to_map
             [ ("message", VObj message); ("timestamp", VStr (now env)) ])).

Definition startReasoning (config : Obj) : M unit :=
  sendMessage "start_reasoning" (stamped config).

Definition stopReasoning : M unit :=
  sendMessage "stop_reasoning" (stamped ∅).

Definition startEvolution (config : Obj) : M unit :=
  sendMessage "start_evolution" (stamped config).

Definition stopEvolution : M unit :=
  sendMessage "stop_evolution" (stamped ∅).

Definition requestSystemMetrics : M unit :=
  sendMessage "request_system_metrics" (stamped ∅).

Definition manageMCPServer (action serverId : string) : M unit :=
  sendMessage "mcp_server_action"
    (VObj (list_to_map
             [ ("action", VStr action); ("server_id", VStr serverId);
               ("timestamp", VStr (now env)) ])).

Definition send_intent (i : Intent) : M unit :=
  match i with
  | ChatMessage message => sendChatMessage message
  | StartReasoning config => startReasoning config
  | StopReasoning => stopReasoning
  | StartEvolution config => startEvolution config
  | StopEvolution => stopEvolution
  | RequestSystemMetrics => requestSystemMetrics
  | ManageMCPServer action serverId => manageMCPServer action serverId
  end.

(** The [type] literal of each sender. *)
Definition intent_type (i : Intent) : string :=
  match i with
  | ChatMessage _ => "chat_message"
  | StartReasoning _ => "start_reasoning"
  | StopReasoning => "stop_reasoning"
  | StartEvolution _ => "start_evolution"
  | StopEvolution => "stop_evolution"
  | RequestSystemMetrics => "request_system_metrics"
  | ManageMCPServer _ _ => "mcp_server_action"
  end.

(** ** Connecting and disconnecting *)

(** The URL [connect] opens: the argument when it starts with [ws], else a
    non-empty [VITE_WS_URL], else one built from the page's location. *)
Definition resolve_url (u : string) : string :=
  if String.prefix "ws" u then u
  else match VITE_WS_URL env with
       | Some envWsUrl =>
           if decide (envWsUrl = "")
           then (if decide (location_protocol env = "https:") then "wss:" else "ws:")
                  ++ "//" ++ location_host env ++ "/ws"
           else envWsUrl
       | None =>
           (if decide (location_protocol env = "https:") then "wss:" else "ws:")
             ++ "//" ++ location_host env ++ "/ws"
       end.

(** [checkConnection] of a waiting [connect] call. *)
Definition checkConnection (p : nat) : M unit :=
  s <- get ;;
  if isConnected s then resolve p
  else if negb (isConnecting s) then reject p "Connection failed"
  else setTimeout (CheckConnection p) 100.

(** [new WebSocket(wsUrl)] when the constructor returns: a further socket,
    still connecting, whose callbacks settle promise [p]. *)
Definition new_WebSocket (wsUrl : string) (p : nat) : M nat :=
  fun s =>
    (set_sockets (sockets s ++ [mkSocket wsUrl CONNECTING p]) s,
     Ok (length (sockets s))).

(** [connect(url)]: the executor of the promise runs at once; the value is
    the promise.  The default argument is ["/"]. *)
Definition connect (u : string) : M nat :=
  p <- new_promise ;;
  s <- get ;;
  if isConnected s then
    resolve p ;;; ret p
  else if isConnecting s then
    checkConnection p ;;; ret p
  else
    modify (set_isConnecting true) ;;;
    let wsUrl := resolve_url u in
    modify (set_url wsUrl) ;;;
    if accepts env wsUrl then
      i <- new_WebSocket wsUrl p ;;
      modify (set_ws (Some i)) ;;;
      ret p
    else
      (* [catch (error)]: the constructor threw *)
      modify (set_isConnecting false) ;;;
      reject p "SyntaxError" ;;;
      ret p.

(** [ws.close(1000, ...)] as the socket sees it: a socket that is
    connecting or open starts closing, one that is closing or closed
    stays as it is. *)
Definition close_socket (i : nat) (s : Service) : Service :=
  match sockets s !! i with
  | Some sk =>
      match readyState sk with
      | CONNECTING | OPEN =>
          set_sockets
            (<[i := mkSocket (sock_url sk) CLOSING (sock_promise sk)]> (sockets s)) s
      | CLOSING | CLOSED => s
      end
  | None => s
  end.

(** [disconnect] *)
Definition disconnect (s : Service) : Service :=
  let s :=
    match ws s with
    | Some i => set_ws None (close_socket i s)
    | None => s
    end in
  set_eventHandlers ∅ s.

(** ** Publishing *)

(** A handler calls a public method. *)
Definition do_call (c : Call) : M unit :=
  match c with
  | DoOn event handler => modify (on event handler)
  | DoUnsubscribe event handler => modify (unsubscribe event handler)
  | DoOff event handler => modify (off event handler)
  | DoDisconnect => modify disconnect
  | DoConnect u => _ <- connect u ;; ret tt
  | DoSend i => send_intent i
  end.

(** The calls of a handler, in order; one that throws would end the
    handler. *)
Fixpoint do_calls (cs : list Call) : M unit :=
  match cs with
  | [] => ret tt
  | c :: cs' => do_call c ;;; do_calls cs'
  end.

(** [handler(data)]: the call is made, the handler makes its calls into
    the service, then it returns or throws. *)
Definition invoke (handler : HandlerRef) (data : Value) : M unit :=
  observe (Called handler data) ;;;
  do_calls (reenters env handler data) ;;;
  match call env handler data with
  | Returns => ret tt
  | Throws error => throw error
  end.

(** The array [emit] walks is the object it read from the map.  [on], the
    unsubscribe functions and [off(event, handler)] change that object in
    place ([push], [splice]) and store it again, so the walk sees what
    they do.  [off(event)] stores a new array and [disconnect] clears the
    map: from then on the walk holds an array that is no longer in the
    map and that nothing changes any more. *)
Inductive Walk : Type :=
| InMap                                (* the array the map holds for the event *)
| Detached (array : list HandlerRef).  (* an array that is not in the map *)

Definition walked (event : string) (w : Walk) (s : Service) : list HandlerRef :=
  match w with
  | InMap => registered event s
  | Detached array => array
  end.

(** The calls that take the event's array out of the map. *)
Definition detaches (event : string) (c : Call) : bool :=
  match c with
  | DoOff e None => bool_decide (e = event)
  | DoDisconnect => true
  | _ => false
  end.

(** Which array the walk holds after a handler made the calls [cs], the
    first of them in state [s]. *)
Fixpoint walk_after (event : string) (cs : list Call) (w : Walk) (s : Service)
  : Walk :=
  match cs with
  | [] => w
  | c :: cs' =>
      walk_after event cs'
        (match w with
         | InMap => if detaches event c then Detached (registered event s) else InMap
         | Detached array => Detached array
         end)
        (do_call c s).1
  end.

(** [handlers.forEach(handler => { try { handler(data) } catch ... })] on
    an array that handlers can change while it is walked.  [forEach]
    reads the length once; then, for each index [k] below it, in order,
    it calls the callback on the element the array has at [k] at that
    moment, and passes on when the array has become too short to have
    one.  [n] counts the indices left.  The handler makes its calls from
    the state in which its own call is recorded. *)
Fixpoint forEach_live (event : string) (data : Value) (n k : nat) (w : Walk)
  : M unit :=
  match n with
  | 0 => ret tt
  | S n' =>
      s <- get ;;
      match walked event w s !! k with
      | Some handler =>
          try_catch (invoke handler data)
            (fun error =>
               console ERROR ("Error in event handler for " ++ event ++ ":") [error]) ;;;
          forEach_live event data n' (S k)
            (walk_after event (reenters env handler data) w
               (observe (Called handler data) s).1)
      | None => forEach_live event data n' (S k) w
      end
  end.

(** [emit]: read the event's array ([|| []] when the map has none, an
    array of its own) and walk it. *)
Definition emit (event : string) (data : Value) : M unit :=
  observe (Emit event data) ;;;
  s <- get ;;
  let handlers := or_empty (eventHandlers s !! event) in
  forEach_live event data (length handlers) 0
    (match eventHandlers s !! event with
     | Some _ => InMap
     | None => Detached []
     end).

(** ** Socket callbacks *)

(** [handleReconnect] *)
Definition handleReconnect : M unit :=
  s <- get ;;
  if decide (maxReconnectAttempts <= reconnectAttempts s) then
    console ERROR "Max reconnection attempts reached" [] ;;;
    emit "connection_failed"
      (VObj {[ "attempts" := VInt (Z.of_nat (reconnectAttempts s)) ]})
  else
    modify (fun s => set_reconnectAttempts (S (reconnectAttempts s)) s) ;;;
    s <- get ;;
    let delay := reconnectDelay * 2 ^ (reconnectAttempts s - 1) in
    setTimeout Reconnect delay.

(** [ws.onopen] of the socket whose promise is [p]. *)
Definition onopen (p : nat) : M unit :=
  modify (set_isConnecting false) ;;;
  modify (set_reconnectAttempts 0) ;;;
  emit "connection_status" (VObj {[ "connected" := VBool true ]}) ;;;
  sendMessage "ping" (VObj {[ "timestamp" := VStr (now env) ]}) ;;;
  resolve p.

(** [ws.onclose], given the [code] and [reason] of the close event. *)
Definition onclose (code : nat) (reason : string) : M unit :=
  modify (set_isConnecting false) ;;;
  emit "connection_status"
    (VObj (<[ "connected" := VBool false ]> {[ "reason" := VStr reason ]})) ;;;
  if decide (code ≠ 1000) then handleReconnect else ret tt.

(** [ws.onerror] of the socket whose promise is [p]. *)
Definition onerror (p : nat) : M unit :=
  console ERROR "WebSocket error occurred:" [] ;;;
  modify (set_isConnecting false) ;;;
  setTimeout (RejectUnlessOpen p) 2000.

(** The event types [handleMessage] republishes under their own name. *)
Definition forwarded : list string :=
  [ "chat_response"; "typing_indicator"; "reasoning_update";
    "reasoning_complete"; "evolution_progress"; "evolution_complete";
    "system_metrics"; "system_alert"; "mcp_server_status";
    "mcp_server_health"; "ollama_status"; "ollama_model_update";
    "ollama_metrics"; "ollama_error" ].

(** [handleMessage], on the [type] and [data] properties of the message
    ([type] is [None] when the property is not a string). *)
Definition handleMessage (type : option string) (data : Value) : M unit :=
  match type with
  | Some t =>
      if decide (t = "pong") then ret tt
      else if decide (t ∈ forwarded) then emit t data
      else if decide (t = "error") then
        console ERROR "Server error:" [data] ;;; emit "connection_error" data
      else console WARN "Unknown message type:" [VStr t]
  | None => console WARN "Unknown message type:" []
  end.

(** [ws.onmessage], given the outcome of [JSON.parse(event.data)]: [None]
    when it throws.  Reading [.type] of [null] throws inside the [try] as
    well; other values that are not objects have no [type]. *)
Definition onmessage (parsed : option Value) : M unit :=
  match parsed with
  | None | Some VNull | Some VUndefined =>
      console ERROR "Failed to parse WebSocket message:" []
  | Some (VObj o) =>
      handleMessage
        (match o !! "type" with Some (VStr t) => Some t | _ => None end)
        (default VUndefined (o !! "data"))
  | Some _ => handleMessage None VUndefined
  end.

(** ** Timers and socket events *)

(** What a timer does when it expires. *)
Definition run_callback (cb : Callback) : M unit :=
  match cb with
  | Reconnect =>
      s <- get ;;
      if decide (ws s = None ∨ ws_readyState s = Some CLOSED)
      then (_ <- connect (url s) ;; ret tt)
      else ret tt
  | CheckConnection p => checkConnection p
  | RejectUnlessOpen p =>
      s <- get ;;
      if negb (isConnected s)
      then reject p "Backend not available - running in offline mode"
      else ret tt
  end.

Definition set_readyState (i : nat) (r : ReadyState) (s : Service) : Service :=
  match sockets s !! i with
  | Some sk =>
      set_sockets (<[i := mkSocket (sock_url sk) r (sock_promise sk)]> (sockets s)) s
  | None => s
  end.

(** What happens to the service: the calls of its public methods, the
    events the browser delivers on a socket it created, and the expiry of
    a pending timer. *)
Inductive Event : Type :=
| CallConnect (u : string)
| CallDisconnect
| CallOn (event : string) (handler : HandlerRef)
| CallUnsubscribe (event : string) (handler : HandlerRef)
| CallOff (event : string) (handler : option HandlerRef)
| CallSend (i : Intent)                       (* one of the seven senders *)
| SockOpen (i : nat)                          (* the connection is established *)
| SockClose (i : nat) (code : nat) (reason : string)  (* the connection is closed *)
| SockFail (i : nat)             (* the connection failed: [error], then [close] with 1006 *)
| SockMessage (i : nat) (parsed : option Value)
| TimerFire (k : nat).

(** One reaction; [None] when the event cannot happen in this state (no
    such socket or timer, or a socket in the wrong state).  The browser
    sets [readyState] before it runs the callback. *)
Definition react (e : Event) (s : Service) : option (Service * Result unit) :=
  match e with
  | CallConnect u => Some ((_ <- connect u ;; ret tt) s)
  | CallDisconnect => Some (disconnect s, Ok tt)
  | CallOn event h => Some (on event h s, Ok tt)
  | CallUnsubscribe event h => Some (unsubscribe event h s, Ok tt)
  | CallOff event h => Some (off event h s, Ok tt)
  | CallSend i => Some (send_intent i s)
  | SockOpen i =>
      sk ← sockets s !! i;
      if decide (readyState sk = CONNECTING)
      then Some (onopen (sock_promise sk) (set_readyState i OPEN s))
      else None
  | SockClose i code reason =>
      sk ← sockets s !! i;
      if decide (readyState sk = CLOSED) then None
      else Some (onclose code reason (set_readyState i CLOSED s))
  | SockFail i =>
      sk ← sockets s !! i;
      if decide (readyState sk = CLOSED) then None
      else Some ((onerror (sock_promise sk) ;;; onclose 1006 "")
                   (set_readyState i CLOSED s))
  | SockMessage i parsed =>
      sk ← sockets s !! i;
      if decide (readyState sk = OPEN)
      then Some (onmessage parsed s)
      else None
  | TimerFire k =>
      t ← timers s !! k;
      Some (run_callback t.2 (set_timers (delete k (timers s)) s))
  end.

(** A run of events from a state; an exception that leaves a callback does
    not stop the event loop. *)
Fixpoint run (es : list Event) (s : Service) : option Service :=
  match es with
  | [] => Some s
  | e :: es' =>
      match react e s with
      | Some (s', _) => run es' s'
      | None => None
      end
  end.

(** ** Reading traces *)

(** What dispatching to one handler that makes no call into the service
    leaves in the trace: the call, and the logged error when the call
    throws. *)
Definition handler_effects (event : string) (data : Value) (handler : HandlerRef)
  : list Obs :=
  Called handler data ::
  match call env handler data with
  | Returns => []
  | Throws error =>
      [Console ERROR ("Error in event handler for " ++ event ++ ":") [error]]
  end.

Definition dispatch (event : string) (data : Value) (handlers : list HandlerRef)
  : list Obs :=
  handlers ≫= handler_effects event data.

(** What one [emit] adds to the trace. *)
Definition emit_trace (event : string) (data : Value) (s : Service) : list Obs :=
  Emit event data :: dispatch event data (registered event s).

(** The errors the handlers throw on a payload, in list order. *)
Definition thrown_by (data : Value) (handlers : list HandlerRef) : list Value :=
  handlers ≫= (fun h => match call env h data with
                         | Returns => []
                         | Throws error => [error]
                         end).

(** No handler calls into the service while it runs. *)
Definition passive : Prop :=
  forall handler data, reenters env handler data = [].



End Methods.

(** The handlers called in a trace, in call order. *)
Definition calls_of (t : list Obs) : list HandlerRef :=
  t ≫= (fun o => match o with Called h _ => [h] | _ => [] end).

(** The events published in a trace, in order. *)
Definition emitted_of (t : list Obs) : list (string * Value) :=
  t ≫= (fun o => match o with Emit e d => [(e, d)] | _ => [] end).

(** The delays of the pending reconnection timers, oldest first. *)
Definition reconnect_delays (s : Service) : list nat :=
  timers s ≫= (fun t => match t.2 with Reconnect => [t.1] | _ => [] end).

(** The errors logged in a trace, in order. *)
Definition errors_of (t : list Obs) : list (string * list Value) :=
  t ≫= (fun o => match o with Console ERROR text args => [(text, args)] | _ => [] end).

(** ** Sample environments *)

(** A page served over http whose handlers all return. *)
Definition quiet_env : Env :=
  {| call := fun _ _ => Returns;
     reenters := fun _ _ => [];
     VITE_WS_URL := None;
     location_protocol := "http:";
     location_host := "localhost:3000";
     accepts := fun _ => true;
     now := "2025-01-01T00:00:00.000Z" |}.

(** The same page, where handler 2 throws on every payload. *)
Definition faulty_env : Env :=
  {| call := fun h _ => if decide (h = 2) then Throws (VStr "boom") else Returns;
     reenters := fun _ _ => [];
     VITE_WS_URL := None;
     location_protocol := "http:";
     location_host := "localhost:3000";
     accepts := fun _ => true;
     now := "2025-01-01T00:00:00.000Z" |}.


(** The same page, where handler 1 unsubscribes itself from
    [system_alert] and then throws. *)
Definition oneshot_faulty_env : Env :=
  {| call := fun h _ => if decide (h = 1) then Throws (VStr "boom") else Returns;
     reenters := fun h _ =>
       if decide (h = 1) then [DoUnsubscribe "system_alert" 1] else [];
     VITE_WS_URL := None;
     location_protocol := "http:";
     location_host := "localhost:3000";
     accepts := fun _ => true;
     now := "2025-01-01T00:00:00.000Z" |}.

(** The state a run of events leads to from the fresh service (the fresh
    service itself when the run is impossible). *)
Definition after (env : Env) (es : list Event) : Service :=
  from_option id initial (run env es initial).

(** A connection was opened. *)
Definition opened : Service :=
  after quiet_env [CallConnect "/"; SockOpen 0].

(** A connection was opened and then closed by the server with code 1001
    (going away): one closed socket, one reconnection timer pending. *)
Definition lost : Service :=
  after quiet_env [CallConnect "/"; SockOpen 0; SockClose 0 1001 ""].

(** The first attempt and five reconnections that all fail.  Each failure
    delivers [error] and then [close] with code 1006; the timers expire in
    the order of their due times. *)
Definition five_failed_reconnections : list Event :=
  [ CallConnect "/"; SockFail 0;
    TimerFire 1; SockFail 1;
    TimerFire 0; TimerFire 0; TimerFire 0; SockFail 2;
    TimerFire 0; TimerFire 0; SockFail 3;
    TimerFire 0; TimerFire 0; SockFail 4;
    TimerFire 0; TimerFire 0; SockFail 5 ].

(** The frames handed to sockets in a trace, in order. *)
Definition frames_of (t : list Obs) : list (nat * string * Value) :=
  t ≫= (fun o => match o with Sent i type data => [(i, type, data)] | _ => [] end).

(** The warnings logged in a trace, in order. *)
Definition warnings_of (t : list Obs) : list string :=
  t ≫= (fun o => match o with Console WARN text _ => [text] | _ => [] end).

(** ** The backoff, as a property of states *)

(** A delay [handleReconnect] can set: 1000, 2000, 4000, 8000 or 16000. *)
Definition backoff_delay (d : nat) : Prop :=
  exists k, k < maxReconnectAttempts /\ d = reconnectDelay * 2 ^ k.

(** The counter is within its maximum and every pending reconnection
    timer has a delay of the backoff. *)
Definition backoff_ok (s : Service) : Prop :=
  reconnectAttempts s <= maxReconnectAttempts
  /\ Forall (fun t : nat * Callback => t.2 = Reconnect -> backoff_delay t.1)
       (timers s).

(** ** Relating the state before and after a piece of code *)

(** [s'] has the handlers and the counter of [s], and its timers are those
    of [s] followed by timers that are not reconnections. *)
Definition steady (s s' : Service) : Prop :=
  eventHandlers s' = eventHandlers s
  /\ reconnectAttempts s' = reconnectAttempts s
  /\ exists extra, timers s' = timers s ++ extra
       /\ Forall (fun t : nat * Callback => t.2 ≠ Reconnect) extra.

(** [s'] keeps the backoff if [s] does. *)
Definition sound (s s' : Service) : Prop :=
  backoff_ok s -> backoff_ok s'.

(** [s'] has the handlers of [s]. *)
Definition same_handlers (s s' : Service) : Prop :=
  eventHandlers s' = eventHandlers s.

(** A computation that, from every state, completes normally in a state
    related to the one it started from. *)
Definition Keeps {A : Type} (R : Service -> Service -> Prop) (m : M A) : Prop :=
  forall s, exists s' a, m s = (s', Ok a) /\ R s s'.

(** The events that are not calls of [on], [off], an unsubscribe function
    or [disconnect]: what the browser delivers, [connect] and the
    senders. *)
Definition external (e : Event) : bool :=
  match e with
  | CallOn _ _ | CallUnsubscribe _ _ | CallOff _ _ | CallDisconnect => false
  | _ => true
  end.

(** As [steady], and the trace is untouched. *)
Definition still (s s' : Service) : Prop :=
  steady s s' /\ trace s' = trace s.

(** [s'] has the counter of [s], and its timers are those of [s] followed
    by timers that are not reconnections. *)
Definition tame (s s' : Service) : Prop :=
  reconnectAttempts s' = reconnectAttempts s
  /\ exists extra, timers s' = timers s ++ extra
       /\ Forall (fun t : nat * Callback => t.2 ≠ Reconnect) extra.

(** What the calls a handler makes can do: [tame], and the trace is that
    of [s] followed by effects among which there is no publication, no
    call of a handler and no logged error. *)
Definition meddled (s s' : Service) : Prop :=
  tame s s'
  /\ exists t, trace s' = trace s ++ t
       /\ emitted_of t = [] /\ calls_of t = [] /\ errors_of t = [].

(** What a walk over handlers can do: [tame], and the trace is that of
    [s] followed by effects among which there is no publication. *)
Definition roused (s s' : Service) : Prop :=
  tame s s' /\ exists t, trace s' = trace s ++ t /\ emitted_of t = [].

(** A computation that, from every state, completes or throws in a state
    related to the one it started from. *)
Definition Ends {A : Type} (R : Service -> Service -> Prop) (m : M A) : Prop :=
  forall s, exists s' r, m s = (s', r) /\ R s s'.

(** A relation that every step of the socket and timer callbacks keeps:
    it is a preorder that holds between states related by [steady],
    across a publication, when [onopen] resets the counter, when
    [handleReconnect] counts an attempt and sets its timer, and when an
    expired timer leaves the list. *)
Definition Invariant (env : Env) (R : Service -> Service -> Prop) : Prop :=
  (forall s, R s s)
  /\ (forall s1 s2 s3, R s1 s2 -> R s2 s3 -> R s1 s3)
  /\ (forall s s', steady s s' -> R s s')
  /\ (forall event data, Keeps R (emit env event data))
  /\ (forall s, R s (set_reconnectAttempts 0 s))
  /\ (forall s, reconnectAttempts s < maxReconnectAttempts ->
        R s (set_timers
               (timers s
                  ++ [(reconnectDelay * 2 ^ (S (reconnectAttempts s) - 1), Reconnect)])
               (set_reconnectAttempts (S (reconnectAttempts s)) s)))
  /\ (forall k s, R s (set_timers (delete k (timers s)) s)).

End WebSocketService.

(* ===================================================================== *)
(** * The components that drive the service *)
(* ===================================================================== *)

(** [src/components/layout/AppLayout.tsx]: the effect that follows
    [isAuthenticated] and its cleanup. *)
Module AppLayout.

Import WebSocketService.

(** [if (isAuthenticated) websocketService.connect().catch(...)] *)
Definition effect (env : Env) (isAuthenticated : bool) : M unit :=
  if isAuthenticated then (_ <- connect env "/" ;; ret tt) else ret tt.

(** [if (websocketService.isConnected()) websocketService.disconnect()] *)
Definition cleanup (s : Service) : Service :=
  if isConnected s then disconnect s else s.

End AppLayout.

(** [src/components/chat/ChatInterface.tsx]: sending a message. *)
Module ChatInterface.

Import WebSocketService.

(** The component's own state. *)
Record Chat : Type := mkChat {
  message : string;
  activeAgent : string;
  isConnected : bool;
  showReasoningPanel : bool
}.

(** [getReasoningModeForAgent], on the values of [ReasoningMode]. *)
Definition getReasoningModeForAgent (agent : string) : string :=
  if decide (agent = "reasoning") then "tot_enhanced_rag"
  else if decide (agent = "evolution") then "adaptive"
  else if decide (agent = "search") then "rag_only"
  else if decide (agent = "coding") then "adaptive"
  else if decide (agent = "research") then "rag_only"
  else "adaptive".

Section SendMessage.

Variable env : Env.

(** [String.prototype.trim] *)
Variable trim : string -> string.

(** The message [sendMessage] builds; the id (made of [Date.now()] and
    [Math.random()]) and the date are inputs. *)
Definition chatMessage (c : Chat) (newId : string) (timestamp : Value) : Obj :=
  list_to_map
    [ ("id", VStr newId); ("type", VStr "user");
      ("content", VStr (trim (message c))); ("timestamp", timestamp);
      ("metadata",
        VObj {[ "reasoning_mode" := VStr (getReasoningModeForAgent (activeAgent c)) ]}) ].

(** [sendMessage]: nothing when the trimmed text is empty or the
    component's flag says offline; otherwise the message is added to the
    conversation that was active at the last render, then handed to the
    service with the agent's id, the input is cleared and the reasoning
    panel is shown for the reasoning agent.  The [catch] logs. *)
Definition sendMessage (activeConversation newId : string) (timestamp : Value)
    (c : Chat) (st : Store.AppState) (svc : Service)
  : Chat * Store.AppState * Service :=
  if decide (trim (message c) = "") then (c, st, svc)
  else if negb (isConnected c) then (c, st, svc)
  else
    let m := chatMessage c newId timestamp in
    let st' := Store.addMessage activeConversation m st in
    match sendChatMessage env (spread m {[ "agentId" := VStr (activeAgent c) ]}) svc with
    | (svc', Ok _) =>
        ({| message := ""; activeAgent := activeAgent c;
            isConnected := isConnected c;
            showReasoningPanel :=
              if decide (activeAgent c = "reasoning") then true
              else showReasoningPanel c |},
         st', svc')
    | (svc', Thrown error) =>
        (c, st', (console ERROR "Failed to send message:" [error] svc').1)
    end.

End SendMessage.

End ChatInterface.

(* ===================================================================== *)
(** * Properties of the store *)
(* ===================================================================== *)

Section StoreFacts.

Import Store.

(** ** Object spread *)

(** A property of [{...a, ...b}] is the one of [b] when [b] has it and the
    one of [a] otherwise. *)
Lemma spread_lookup (a b : Obj) (k : string) :
  spread a b !! k = match b !! k with Some v => Some v | None => a !! k end.
Proof.
  unfold spread. destruct (b !! k) as [v|] eqn:Hb.
  - by apply lookup_union_Some_l.
  - by rewrite lookup_union_r.
Qed.

(** Mapping a function that is the identity on every element. *)
Lemma fmap_id_on {A : Type} (f : A -> A) (l : list A) :
  (forall x, x ∈ l -> f x = x) -> f <$> l = l.
Proof.
  induction l as [|x l IH]; intros H; [done|].
  cbn. rewrite H; [|by left]. f_equal. apply IH. intros y Hy. apply H. by right.
Qed.

(** ** Setters only write their field *)

Lemma set_conversations_id (s : AppState) : set_conversations (conversations s) s = s.
Proof. by destruct s. Qed.

Lemma set_mcpServers_id (s : AppState) : set_mcpServers (mcpServers s) s = s.
Proof. by destruct s. Qed.

Lemma set_conversations_twice (c1 c2 : gmap string (list Obj)) (s : AppState) :
  set_conversations c2 (set_conversations c1 s) = set_conversations c2 s.
Proof. by destruct s. Qed.

(** ** [addMessage] *)

Lemma addMessage_conversations (id : string) (m : Obj) (s : AppState) :
  conversations (addMessage id m s)
  = <[id := or_empty (conversations s !! id) ++ [m]]> (conversations s).
Proof. reflexivity. Qed.

Lemma addMessages_frame (id : string) (ms : list Obj) (s : AppState) :
  addMessages id ms s = set_conversations (conversations (addMessages id ms s)) s.
Proof.
  revert s. induction ms as [|m ms IH]; intros s.
  - cbn. by rewrite set_conversations_id.
  - unfold addMessages in *. cbn [foldl]. rewrite IH.
    generalize (conversations (foldl (fun st m0 => addMessage id m0 st)
                                 (addMessage id m s) ms)).
    intros c. unfold addMessage. apply set_conversations_twice.
Qed.

Lemma addMessages_this (id : string) (ms : list Obj) (s : AppState) :
  or_empty (conversations (addMessages id ms s) !! id)
  = or_empty (conversations s !! id) ++ ms.
Proof.
  revert s. induction ms as [|m ms IH]; intros s.
  - cbn. by rewrite app_nil_r.
  - unfold addMessages in *. cbn [foldl]. rewrite IH.
    rewrite addMessage_conversations, lookup_insert_eq. cbn.
    by rewrite <- app_assoc.
Qed.

Lemma addMessages_present (id : string) (m : Obj) (ms : list Obj) (s : AppState) :
  is_Some (conversations (addMessages id (m :: ms) s) !! id).
Proof.
  revert m s. induction ms as [|m' ms IH]; intros m s.
  - cbn. rewrite lookup_insert_eq. eauto.
  - apply (IH m' (addMessage id m s)).
Qed.

Lemma addMessages_other (id other : string) (ms : list Obj) (s : AppState) :
  other ≠ id ->
  conversations (addMessages id ms s) !! other = conversations s !! other.
Proof.
  intros Hne. revert s. induction ms as [|m ms IH]; intros s; [done|].
  unfold addMessages in *. cbn [foldl]. rewrite IH.
  rewrite addMessage_conversations. by rewrite lookup_insert_ne.
Qed.

(** C4.  Any sequence of [addMessage] calls on one conversation, from any
    store state, leaves in that conversation its previous messages (none
    when it was absent) followed by the added ones in call order, so every
    earlier message keeps its position; the conversation exists as soon as
    one message was added; no other conversation and no other field of the
    store changes. *)
Theorem addMessage_sequence_appends (id : string) (ms : list Obj) (s : AppState) :
  let before := or_empty (conversations s !! id) in
  let s' := addMessages id ms s in
  conversations s' !! id
    = match ms with
      | [] => conversations s !! id
      | _ :: _ => Some (before ++ ms)
      end
  /\ or_empty (conversations s' !! id) = before ++ ms
  /\ length (or_empty (conversations s' !! id)) = length before + length ms
  /\ (forall i m, before !! i = Some m ->
        or_empty (conversations s' !! id) !! i = Some m)
  /\ (forall other, other ≠ id ->
        conversations s' !! other = conversations s !! other)
  /\ s' = set_conversations (conversations s') s.
Proof.
  intros before s'. subst before s'.
  pose proof (addMessages_this id ms s) as Hthis.
  split; [|split; [|split; [|split; [|split]]]].
  - destruct ms as [|m ms]; [done|].
    destruct (addMessages_present id m ms s) as [l Hl].
    rewrite Hl in Hthis |- *. cbn in Hthis. by rewrite Hthis.
  - exact Hthis.
  - rewrite Hthis. apply length_app.
  - intros i m Hi. rewrite Hthis. by apply lookup_app_l_Some.
  - intros other Hne. by apply addMessages_other.
  - apply addMessages_frame.
Qed.

(** The scenario of the specification: two messages added to the empty
    [default] conversation of the initial store. *)
Lemma addMessage_sequence_appends_witness :
  conversations (addMessages "default" [sample_m1; sample_m2] initialState) !! "default"
    = Some [sample_m1; sample_m2]
  /\ conversations (addMessages "default" [sample_m1; sample_m2] initialState) !! "other"
     = None.
Proof.
  destruct (addMessage_sequence_appends "default" [sample_m1; sample_m2] initialState)
    as (Hthis & _ & _ & _ & Hother & _).
  split.
  - exact Hthis.
  - rewrite (Hother "other"); [reflexivity | discriminate].
Defined.

(** ** [updateMessage] *)

(** C8, as the code has it.  [updateMessage] stores under the conversation
    id the conversation's messages ([[]] when the conversation is absent)
    with [updates] spread into every message whose id is [messageId]: such
    a message takes [updates]'s value for each field [updates] has and
    keeps its own value for every other field; every other message, every
    other conversation and every other field of the store is unchanged.
    When no message of an existing conversation has that id the store is
    unchanged; when the conversation itself is absent it is created
    empty. *)
Theorem updateMessage_merges_by_id
    (conversationId messageId : string) (updates : Obj) (s : AppState) :
  let before := or_empty (conversations s !! conversationId) in
  let s' := updateMessage conversationId messageId updates s in
  conversations s' !! conversationId = Some (merge_if messageId updates <$> before)
  /\ (forall i msg, before !! i = Some msg -> id_is messageId msg = true ->
        exists msg', or_empty (conversations s' !! conversationId) !! i = Some msg'
          /\ forall k, msg' !! k
               = match updates !! k with Some v => Some v | None => msg !! k end)
  /\ (forall i msg, before !! i = Some msg -> id_is messageId msg = false ->
        or_empty (conversations s' !! conversationId) !! i = Some msg)
  /\ length (or_empty (conversations s' !! conversationId)) = length before
  /\ (forall other, other ≠ conversationId ->
        conversations s' !! other = conversations s !! other)
  /\ s' = set_conversations (conversations s') s
  /\ (is_Some (conversations s !! conversationId) ->
      (forall msg, msg ∈ before -> id_is messageId msg = false) ->
      s' = s)
  /\ (conversations s !! conversationId = None ->
      conversations s' = <[conversationId := []]> (conversations s)).
Proof.
  intros before s'. subst before s'.
  assert (Hthis : conversations (updateMessage conversationId messageId updates s)
                    !! conversationId
                  = Some (merge_if messageId updates
                            <$> or_empty (conversations s !! conversationId))).
  { unfold updateMessage. cbn. by rewrite lookup_insert_eq. }
  split; [exact Hthis|]. rewrite Hthis. cbn [or_empty].
  split; [|split; [|split; [|split; [|split; [|split]]]]].
  - intros i msg Hi Hid. exists (spread msg updates). split.
    + rewrite list_lookup_fmap, Hi. cbn. unfold merge_if. by rewrite Hid.
    + intros k. apply spread_lookup.
  - intros i msg Hi Hid.
    rewrite list_lookup_fmap, Hi. cbn. unfold merge_if. by rewrite Hid.
  - apply length_fmap.
  - intros other Hne. unfold updateMessage. cbn. by rewrite lookup_insert_ne.
  - reflexivity.
  - intros [l Hl] Hnone. unfold updateMessage.
    rewrite Hl in Hnone |- *. cbn [or_empty] in *.
    rewrite (fmap_id_on _ l).
    + rewrite insert_id by done. apply set_conversations_id.
    + intros msg Hmsg. by rewrite (Hnone msg Hmsg).
  - intros Hnone. unfold updateMessage. cbn. by rewrite Hnone.
Qed.

(** One message of the initial store's only conversation is updated. *)
Lemma updateMessage_merges_by_id_witness :
  conversations
    (updateMessage "default" "m1" {[ "content" := VStr "bye" ]}
       (addMessage "default" sample_m1 initialState)) !! "other"
    = None
  /\ updateMessage "default" "m2" {[ "content" := VStr "bye" ]}
       (addMessage "default" sample_m1 initialState)
     = addMessage "default" sample_m1 initialState.
Proof.
  set (s := addMessage "default" sample_m1 initialState). split.
  - destruct (updateMessage_merges_by_id "default" "m1" {[ "content" := VStr "bye" ]} s)
      as (_ & _ & _ & _ & Hother & _).
    rewrite (Hother "other"); [reflexivity | discriminate].
  - destruct (updateMessage_merges_by_id "default" "m2" {[ "content" := VStr "bye" ]} s)
      as (_ & _ & _ & _ & _ & _ & Hnoop & _).
    apply Hnoop.
    + eexists. reflexivity.
    + intros msg Hmsg. apply list_elem_of_singleton in Hmsg. by subst msg.
Defined.

(** C8 as stated fails: with no message of id [m1] anywhere in the store,
    [updateMessage] on a conversation the store does not have is not a
    no-op, it creates that conversation. *)
Lemma updateMessage_absent_conversation_changes_store :
  (forall c msgs msg, conversations initialState !! c = Some msgs ->
                      msg ∈ msgs -> id_is "m1" msg = false)
  /\ conversations initialState !! "other" = None
  /\ conversations (updateMessage "other" "m1" ∅ initialState) !! "other" = Some []
  /\ updateMessage "other" "m1" ∅ initialState ≠ initialState.
Proof.
  split; [|split; [|split]].
  - intros c msgs msg Hc Hmsg.
    destruct (decide (c = "default")) as [->|Hne].
    + cbn in Hc. rewrite lookup_singleton_eq in Hc. injection Hc as <-.
      by apply elem_of_nil in Hmsg.
    + cbn in Hc. by rewrite lookup_singleton_ne in Hc.
  - reflexivity.
  - reflexivity.
  - intros Heq. apply (f_equal (fun st => conversations st !! "other")) in Heq.
    discriminate Heq.
Qed.

(** ** [setActiveConversation] *)

(** C10.  [setActiveConversation id] makes [id] the active conversation and
    leaves the map with an entry for [id]: the empty list when [id] was
    absent, its own list when it was present; no other conversation and no
    other field of the store changes. *)
Theorem setActiveConversation_ensures_entry (id : string) (s : AppState) :
  let s' := setActiveConversation id s in
  activeConversation s' = id
  /\ is_Some (conversations s' !! id)
  /\ conversations s' !! id
       = match conversations s !! id with
         | Some messages => Some messages
         | None => Some []
         end
  /\ (forall other, other ≠ id ->
        conversations s' !! other = conversations s !! other)
  /\ s' = set_activeConversation id (set_conversations (conversations s') s).
Proof.
  intros s'. subst s'. unfold setActiveConversation.
  destruct (decide (is_Some (conversations s !! id))) as [[l Hl]|Hno]; cbn.
  - rewrite Hl. repeat split; eauto.
  - assert (Hnone : conversations s !! id = None).
    { destruct (conversations s !! id) eqn:E; [|done]. exfalso. apply Hno. eauto. }
    rewrite Hnone, lookup_insert_eq. repeat split; eauto.
    intros other Hne. by rewrite lookup_insert_ne.
Qed.

Lemma setActiveConversation_ensures_entry_witness :
  conversations (setActiveConversation "c2" initialState) !! "default" = Some [].
Proof.
  destruct (setActiveConversation_ensures_entry "c2" initialState)
    as (_ & _ & _ & Hother & _).
  rewrite (Hother "default"); [reflexivity | discriminate].
Defined.

(** ** [updateEvolutionState] *)

(** C9.  [updateEvolutionState updates] is a shallow merge: each top-level
    field of the evolution snapshot takes the update's value when the
    update has that field and keeps its previous value otherwise, and no
    other field of the store changes.  So an update that only carries
    [currentGeneration = 3] sets that field and leaves [maxGenerations]
    (and every other field) as it was. *)
Theorem updateEvolutionState_shallow_merge (updates : Obj) (s : AppState) :
  let s' := updateEvolutionState updates s in
  (forall k, evolutionState s' !! k
             = match updates !! k with
               | Some v => Some v
               | None => evolutionState s !! k
               end)
  /\ s' = set_evolutionState (evolutionState s') s
  /\ (let u : Obj := {[ "currentGeneration" := VInt 3 ]} in
      evolutionState (updateEvolutionState u s) !! "currentGeneration" = Some (VInt 3)
      /\ evolutionState (updateEvolutionState u s) !! "maxGenerations"
           = evolutionState s !! "maxGenerations").
Proof.
  intros s'. subst s'. split; [|split; [|split]].
  - intros k. apply spread_lookup.
  - reflexivity.
  - cbn. by rewrite spread_lookup.
  - cbn. by rewrite spread_lookup.
Qed.

(** From the initial snapshot, [maxGenerations] stays 100. *)
Example updateEvolutionState_generation_3 :
  let s' := updateEvolutionState {[ "currentGeneration" := VInt 3 ]} initialState in
  evolutionState s' !! "currentGeneration" = Some (VInt 3)
  /\ evolutionState s' !! "maxGenerations" = Some (VInt 100)
  /\ evolutionState s' !! "fitnessHistory" = Some (VArr []).
Proof. repeat split; reflexivity. Qed.

(** ** [updateMCPServer] *)

(** C3, as the code has it.  [updateMCPServer serverId updates] maps over
    the array of servers: every record whose id is [serverId] takes
    [updates]'s value for each field [updates] has and keeps its own value
    for every other field; every other record is unchanged and the array
    keeps its length and order, so nothing is inserted: when no record has
    that id the store is unchanged.  No other field of the store changes. *)
Theorem updateMCPServer_merges_known_ids
    (serverId : string) (updates : Obj) (s : AppState) :
  let s' := updateMCPServer serverId updates s in
  mcpServers s' = merge_if serverId updates <$> mcpServers s
  /\ length (mcpServers s') = length (mcpServers s)
  /\ (forall i server, mcpServers s !! i = Some server ->
        id_is serverId server = true ->
        exists server', mcpServers s' !! i = Some server'
          /\ forall k, server' !! k
               = match updates !! k with Some v => Some v | None => server !! k end)
  /\ (forall i server, mcpServers s !! i = Some server ->
        id_is serverId server = false ->
        mcpServers s' !! i = Some server)
  /\ ((forall server, server ∈ mcpServers s -> id_is serverId server = false) ->
      s' = s)
  /\ s' = set_mcpServers (mcpServers s') s.
Proof.
  intros s'. subst s'.
  assert (Hmap : mcpServers (updateMCPServer serverId updates s)
                 = merge_if serverId updates <$> mcpServers s) by reflexivity.
  rewrite Hmap.
  split; [reflexivity|]. split; [apply length_fmap|].
  split; [|split; [|split]].
  - intros i server Hi Hid. exists (spread server updates). split.
    + rewrite list_lookup_fmap, Hi. cbn. unfold merge_if. by rewrite Hid.
    + intros k. apply spread_lookup.
  - intros i server Hi Hid.
    rewrite list_lookup_fmap, Hi. cbn. unfold merge_if. by rewrite Hid.
  - intros Hnone. unfold updateMCPServer.
    change (set_mcpServers (merge_if serverId updates <$> mcpServers s) s = s).
    rewrite (fmap_id_on _ (mcpServers s)).
    + apply set_mcpServers_id.
    + intros server Hs. unfold merge_if. by rewrite (Hnone server Hs).
  - reflexivity.
Qed.

Lemma updateMCPServer_merges_known_ids_witness :
  updateMCPServer "db" {[ "status" := VStr "running" ]}
    (updateMCPServers [sample_server] initialState)
  = updateMCPServers [sample_server] initialState.
Proof.
  set (s := updateMCPServers [sample_server] initialState).
  destruct (updateMCPServer_merges_known_ids "db" {[ "status" := VStr "running" ]} s)
    as (_ & _ & _ & _ & Hnoop & _).
  apply Hnoop.
  intros server Hs. apply list_elem_of_singleton in Hs. by subst server.
Defined.

(** C3 as stated fails: an update for an id the registry does not have
    inserts no record. *)
Lemma updateMCPServer_unknown_id_inserts_nothing :
  (forall server, server ∈ [sample_server] -> id_is "db" server = false)
  /\ mcpServers
       (updateMCPServer "db" {[ "status" := VStr "running" ]}
          (updateMCPServers [sample_server] initialState))
     = [sample_server]
  /\ ~ (exists server,
          server ∈ mcpServers
                     (updateMCPServer "db" {[ "status" := VStr "running" ]}
                        (updateMCPServers [sample_server] initialState))
          /\ id_is "db" server = true)
  /\ mcpServers (updateMCPServer "fs" {[ "status" := VStr "running" ]} initialState)
     = [].
Proof.
  split; [|split; [|split]].
  - intros server Hs. apply list_elem_of_singleton in Hs. by subst server.
  - reflexivity.
  - intros (server & Hs & Hid).
    change (server ∈ [sample_server]) in Hs.
    apply list_elem_of_singleton in Hs. subst server. discriminate Hid.
  - reflexivity.
Qed.

End StoreFacts.

(* ===================================================================== *)
(** * Basic facts about the service *)
(* ===================================================================== *)

Section ServiceBasics.

Import WebSocketService.

Variable env : Env.

(** ** Setters *)

Lemma set_trace_twice (t1 t2 : list Obs) (s : Service) :
  set_trace t2 (set_trace t1 s) = set_trace t2 s.
Proof. by destruct s. Qed.

Lemma set_trace_id (s : Service) : set_trace (trace s) s = s.
Proof. by destruct s. Qed.

Lemma set_promises_twice (p1 p2 : list PromiseState) (s : Service) :
  set_promises p2 (set_promises p1 s) = set_promises p2 s.
Proof. by destruct s. Qed.

Lemma isConnected_set_promises (ps : list PromiseState) (s : Service) :
  isConnected (set_promises ps s) = isConnected s.
Proof. reflexivity. Qed.

(** ** Reading traces *)

Lemma calls_of_app (t1 t2 : list Obs) : calls_of (t1 ++ t2) = calls_of t1 ++ calls_of t2.
Proof. unfold calls_of. apply bind_app. Qed.

Lemma errors_of_app (t1 t2 : list Obs) :
  errors_of (t1 ++ t2) = errors_of t1 ++ errors_of t2.
Proof. unfold errors_of. apply bind_app. Qed.

Lemma emitted_of_app (t1 t2 : list Obs) :
  emitted_of (t1 ++ t2) = emitted_of t1 ++ emitted_of t2.
Proof. unfold emitted_of. apply bind_app. Qed.

Lemma frames_of_app (t1 t2 : list Obs) :
  frames_of (t1 ++ t2) = frames_of t1 ++ frames_of t2.
Proof. unfold frames_of. apply bind_app. Qed.

(** The timers that are not reconnections add no reconnection delay. *)
Lemma reconnect_delays_extra (s s' : Service) (extra : list (nat * Callback)) :
  timers s' = timers s ++ extra ->
  Forall (fun t : nat * Callback => t.2 ≠ Reconnect) extra ->
  reconnect_delays s' = reconnect_delays s.
Proof.
  intros Ht Hx. unfold reconnect_delays. rewrite Ht, bind_app.
  assert (Hnone : extra ≫= (fun t : nat * Callback =>
                     match t.2 with Reconnect => [t.1] | _ => [] end) = []).
  { clear Ht. induction Hx as [|[d cb] l Hcb _ IH]; [done|].
    rewrite bind_cons, IH. cbn in Hcb |- *.
    destruct cb; [by destruct Hcb | done | done]. }
  by rewrite Hnone, app_nil_r.
Qed.

(** ** Primitive steps *)

Lemma sendMessage_eq (type : string) (data : Value) (s : Service) :
  exists o, sendMessage type data s = (set_trace (trace s ++ [o]) s, Ok tt).
Proof.
  unfold sendMessage, bind, get, console, observe, modify.
  destruct (ws s) as [i|]; [|eauto].
  destruct (decide (readyState <$> sockets s !! i = Some OPEN)); eauto.
Qed.

Lemma settle_eq (p : nat) (st : PromiseState) (s : Service) :
  exists ps, settle p st s = (set_promises ps s, Ok tt).
Proof.
  unfold settle, modify.
  destruct (promises s !! p) as [[| |]|]; eauto;
    exists (promises s); by destruct s.
Qed.

Lemma isConnected_ws (s : Service) :
  isConnected s = true ->
  exists i, ws s = Some i /\ readyState <$> sockets s !! i = Some OPEN.
Proof.
  unfold isConnected, ws_readyState. intros H%bool_decide_eq_true.
  destruct (ws s) as [i|]; [|done]. by exists i.
Qed.

Lemma sendMessage_connected (type : string) (data : Value) (i : nat) (s : Service) :
  ws s = Some i -> isConnected s = true ->
  sendMessage type data s = (set_trace (trace s ++ [Sent i type data]) s, Ok tt).
Proof.
  intros Hws Hc. destruct (isConnected_ws s Hc) as (j & Hj & Hopen).
  assert (j = i) as -> by congruence.
  unfold sendMessage, bind, get. rewrite Hws.
  by rewrite decide_True.
Qed.

Lemma sendMessage_offline (type : string) (data : Value) (s : Service) :
  isConnected s = false ->
  sendMessage type data s
  = (set_trace
       (trace s
          ++ [Console WARN
                ("Cannot send message '" ++ type ++ "' - WebSocket not connected") []])
       s,
     Ok tt).
Proof.
  unfold isConnected, ws_readyState. intros H%bool_decide_eq_false.
  unfold sendMessage, bind, get. destruct (ws s) as [i|]; [|done].
  cbn in H. by rewrite decide_False.
Qed.

Lemma close_socket_frame (i : nat) (s : Service) :
  timers (close_socket i s) = timers s
  /\ url (close_socket i s) = url s
  /\ promises (close_socket i s) = promises s
  /\ isConnecting (close_socket i s) = isConnecting s
  /\ reconnectAttempts (close_socket i s) = reconnectAttempts s
  /\ trace (close_socket i s) = trace s
  /\ length (sockets (close_socket i s)) = length (sockets s).
Proof.
  unfold close_socket. destruct (sockets s !! i) as [sk|]; [|done].
  destruct (readyState sk); cbn; rewrite ?length_insert; done.
Qed.

(** [disconnect] drops the socket and the handlers and writes nothing
    else: the timers, in particular, stay. *)
Lemma disconnect_frame (s : Service) :
  ws (disconnect s) = None
  /\ eventHandlers (disconnect s) = ∅
  /\ timers (disconnect s) = timers s
  /\ url (disconnect s) = url s
  /\ promises (disconnect s) = promises s
  /\ isConnecting (disconnect s) = isConnecting s
  /\ reconnectAttempts (disconnect s) = reconnectAttempts s
  /\ trace (disconnect s) = trace s
  /\ length (sockets (disconnect s)) = length (sockets s).
Proof.
  unfold disconnect. destruct (ws s) as [i|] eqn:Hws; cbn.
  - destruct (close_socket_frame i s) as (? & ? & ? & ? & ? & ? & ?). done.
  - done.
Qed.

(** ** The event's array *)

Lemma registered_set_other (event other : string) (l : list HandlerRef) (s : Service) :
  other ≠ event ->
  registered other (set_eventHandlers (<[event := l]> (eventHandlers s)) s)
  = registered other s.
Proof. intros Hne. unfold registered. cbn. by rewrite lookup_insert_ne. Qed.

Lemma registered_set_this (event : string) (l : list HandlerRef) (s : Service) :
  registered event (set_eventHandlers (<[event := l]> (eventHandlers s)) s) = l.
Proof. unfold registered. cbn. by rewrite lookup_insert_eq. Qed.

Lemma registered_frame (event : string) (s s' : Service) :
  eventHandlers s' = eventHandlers s -> registered event s' = registered event s.
Proof. intros He. unfold registered. by rewrite He. Qed.


(** ** A small logic of state relations *)

Lemma steady_refl (s : Service) : steady s s.
Proof.
  split; [done|]. split; [done|]. exists []. by rewrite app_nil_r.
Qed.

Lemma steady_trans (s1 s2 s3 : Service) :
  steady s1 s2 -> steady s2 s3 -> steady s1 s3.
Proof.
  intros (He1 & Hr1 & x1 & Ht1 & Hx1) (He2 & Hr2 & x2 & Ht2 & Hx2).
  split; [congruence|]. split; [congruence|].
  exists (x1 ++ x2). rewrite Ht2, Ht1, <- app_assoc. split; [done|].
  by apply Forall_app.
Qed.

Lemma steady_fields (s s' : Service) :
  eventHandlers s' = eventHandlers s ->
  reconnectAttempts s' = reconnectAttempts s ->
  timers s' = timers s -> steady s s'.
Proof.
  intros He Hr Ht. split; [done|]. split; [done|]. exists [].
  by rewrite app_nil_r.
Qed.

Lemma still_refl (s : Service) : still s s.
Proof. split; [apply steady_refl | done]. Qed.

Lemma still_trans (s1 s2 s3 : Service) : still s1 s2 -> still s2 s3 -> still s1 s3.
Proof.
  intros [H1 T1] [H2 T2]. split; [by eapply steady_trans | congruence].
Qed.

Lemma still_fields (s s' : Service) :
  eventHandlers s' = eventHandlers s ->
  reconnectAttempts s' = reconnectAttempts s ->
  timers s' = timers s -> trace s' = trace s -> still s s'.
Proof. intros He Hr Ht Htr. split; [by apply steady_fields | done]. Qed.

Lemma still_steady (s s' : Service) : still s s' -> steady s s'.
Proof. by intros [? _]. Qed.

Lemma tame_refl (s : Service) : tame s s.
Proof. split; [done|]. exists []. by rewrite app_nil_r. Qed.

Lemma tame_trans (s1 s2 s3 : Service) : tame s1 s2 -> tame s2 s3 -> tame s1 s3.
Proof.
  intros (Hr1 & x1 & Ht1 & Hx1) (Hr2 & x2 & Ht2 & Hx2).
  split; [congruence|].
  exists (x1 ++ x2). rewrite Ht2, Ht1, <- app_assoc. split; [done|].
  by apply Forall_app.
Qed.

Lemma tame_fields (s s' : Service) :
  reconnectAttempts s' = reconnectAttempts s -> timers s' = timers s -> tame s s'.
Proof. intros Hr Ht. split; [done|]. exists []. by rewrite app_nil_r. Qed.

Lemma steady_tame (s s' : Service) : steady s s' -> tame s s'.
Proof. by intros (_ & Hr & Hx). Qed.

Lemma tame_sound (s s' : Service) : tame s s' -> sound s s'.
Proof.
  intros (Hr & x & Ht & Hx) [Hle Hall]. split; [by rewrite Hr|].
  rewrite Ht. apply Forall_app. split; [done|].
  eapply Forall_impl; [exact Hx|]. intros t Hne Heq. by destruct Hne.
Qed.

Lemma tame_delays (s s' : Service) :
  tame s s' -> reconnect_delays s' = reconnect_delays s.
Proof. intros (_ & x & Ht & Hx). by eapply reconnect_delays_extra. Qed.

Lemma meddled_refl (s : Service) : meddled s s.
Proof. split; [apply tame_refl|]. exists []. by rewrite app_nil_r. Qed.

Lemma meddled_trans (s1 s2 s3 : Service) :
  meddled s1 s2 -> meddled s2 s3 -> meddled s1 s3.
Proof.
  intros (H1 & t1 & T1 & E1 & C1 & X1) (H2 & t2 & T2 & E2 & C2 & X2).
  split; [by eapply tame_trans|].
  exists (t1 ++ t2). rewrite T2, T1, <- app_assoc.
  rewrite emitted_of_app, calls_of_app, errors_of_app, E1, E2, C1, C2, X1, X2.
  done.
Qed.

Lemma meddled_fields (s s' : Service) :
  reconnectAttempts s' = reconnectAttempts s -> timers s' = timers s ->
  trace s' = trace s -> meddled s s'.
Proof.
  intros Hr Ht Htr. split; [by apply tame_fields|]. exists [].
  by rewrite app_nil_r.
Qed.

Lemma still_meddled (s s' : Service) : still s s' -> meddled s s'.
Proof.
  intros [Hs Htr]. split; [by apply steady_tame|]. exists [].
  by rewrite app_nil_r.
Qed.

Lemma roused_refl (s : Service) : roused s s.
Proof. split; [apply tame_refl|]. exists []. by rewrite app_nil_r. Qed.

Lemma roused_trans (s1 s2 s3 : Service) :
  roused s1 s2 -> roused s2 s3 -> roused s1 s3.
Proof.
  intros (H1 & t1 & T1 & E1) (H2 & t2 & T2 & E2).
  split; [by eapply tame_trans|].
  exists (t1 ++ t2). rewrite T2, T1, <- app_assoc.
  by rewrite emitted_of_app, E1, E2.
Qed.

Lemma meddled_roused (s s' : Service) : meddled s s' -> roused s s'.
Proof. intros (H & t & T & E & _). split; [done|]. by exists t. Qed.

(** One more effect that is not a publication. *)
Lemma roused_observe (o : Obs) (s : Service) :
  emitted_of [o] = [] -> roused s (set_trace (trace s ++ [o]) s).
Proof. intros Ho. split; [by apply tame_fields|]. by exists [o]. Qed.

Lemma Keeps_ret {A : Type} (R : Service -> Service -> Prop) (a : A) :
  (forall s, R s s) -> Keeps R (ret a).
Proof. intros Hrefl s. exists s, a. by split. Qed.

Lemma Keeps_bind {A B : Type} (R : Service -> Service -> Prop)
    (m : M A) (k : A -> M B) :
  (forall s1 s2 s3, R s1 s2 -> R s2 s3 -> R s1 s3) ->
  Keeps R m -> (forall a, Keeps R (k a)) -> Keeps R (bind m k).
Proof.
  intros Htrans Hm Hk s. destruct (Hm s) as (s1 & a & Em & R1).
  destruct (Hk a s1) as (s2 & b & Ek & R2).
  exists s2, b. unfold bind. rewrite Em. split; [exact Ek|]. eauto.
Qed.

Lemma Keeps_modify (R : Service -> Service -> Prop) (f : Service -> Service) :
  (forall s, R s (f s)) -> Keeps R (modify f).
Proof. intros Hf s. exists (f s), tt. by split. Qed.

Lemma Keeps_get (R : Service -> Service -> Prop) :
  (forall s, R s s) -> Keeps R get.
Proof. intros Hrefl s. exists s, s. by split. Qed.

Lemma Keeps_weaken {A : Type} (R R' : Service -> Service -> Prop) (m : M A) :
  (forall s s', R s s' -> R' s s') -> Keeps R m -> Keeps R' m.
Proof.
  intros Hsub Hm s. destruct (Hm s) as (s' & a & E & HR). exists s', a. eauto.
Qed.

(** ** The steps that leave the handlers, the counter and the backoff *)

Lemma Keeps_observe (o : Obs) : Keeps steady (observe o).
Proof. apply Keeps_modify. intros s. by apply steady_fields. Qed.

Lemma Keeps_console (lv : Level) (text : string) (args : list Value) :
  Keeps steady (console lv text args).
Proof. apply Keeps_observe. Qed.

Lemma Still_settle (p : nat) (st : PromiseState) : Keeps still (settle p st).
Proof.
  apply Keeps_modify. intros s.
  destruct (promises s !! p) as [[| |]|]; by apply still_fields.
Qed.

Lemma Still_setTimeout (cb : Callback) (delay : nat) :
  cb ≠ Reconnect -> Keeps still (setTimeout cb delay).
Proof.
  intros Hcb. apply Keeps_modify. intros s. split; [|done].
  split; [done|]. split; [done|].
  exists [(delay, cb)]. split; [done|]. by constructor.
Qed.

Lemma Still_checkConnection (p : nat) : Keeps still (checkConnection p).
Proof.
  unfold checkConnection. apply Keeps_bind; [apply still_trans| |].
  - apply Keeps_get, still_refl.
  - intros s. destruct (isConnected s); [apply Still_settle|].
    destruct (negb (isConnecting s)); [apply Still_settle|].
    by apply Still_setTimeout.
Qed.

(** [connect] leaves the handlers, the counter and the trace as they are
    and sets no reconnection timer. *)
Lemma Still_connect (u : string) : Keeps still (connect env u).
Proof.
  unfold connect. apply Keeps_bind; [apply still_trans| |].
  { intros s. eexists _, _. split; [reflexivity|]. by apply still_fields. }
  intros p. apply Keeps_bind; [apply still_trans| |].
  { apply Keeps_get, still_refl. }
  intros s. destruct (isConnected s).
  { apply Keeps_bind; [apply still_trans|apply Still_settle|].
    intros _. apply Keeps_ret, still_refl. }
  destruct (isConnecting s).
  { apply Keeps_bind; [apply still_trans|apply Still_checkConnection|].
    intros _. apply Keeps_ret, still_refl. }
  apply Keeps_bind; [apply still_trans| |].
  { apply Keeps_modify. intros s0. by apply still_fields. }
  intros _. apply Keeps_bind; [apply still_trans| |].
  { apply Keeps_modify. intros s0. by apply still_fields. }
  intros _. destruct (accepts env (resolve_url env u)).
  - apply Keeps_bind; [apply still_trans| |].
    { intros s0. eexists _, _. split; [reflexivity|]. by apply still_fields. }
    intros i. apply Keeps_bind; [apply still_trans| |].
    { apply Keeps_modify. intros s0. by apply still_fields. }
    intros _. apply Keeps_ret, still_refl.
  - apply Keeps_bind; [apply still_trans| |].
    { apply Keeps_modify. intros s0. by apply still_fields. }
    intros _. apply Keeps_bind; [apply still_trans|apply Still_settle|].
    intros _. apply Keeps_ret, still_refl.
Qed.

Lemma Keeps_settle (p : nat) (st : PromiseState) : Keeps steady (settle p st).
Proof. eapply Keeps_weaken; [apply still_steady | apply Still_settle]. Qed.

Lemma Keeps_setTimeout (cb : Callback) (delay : nat) :
  cb ≠ Reconnect -> Keeps steady (setTimeout cb delay).
Proof.
  intros Hcb. eapply Keeps_weaken; [apply still_steady | by apply Still_setTimeout].
Qed.

Lemma Keeps_checkConnection (p : nat) : Keeps steady (checkConnection p).
Proof. eapply Keeps_weaken; [apply still_steady | apply Still_checkConnection]. Qed.

Lemma Keeps_connect (u : string) : Keeps steady (connect env u).
Proof. eapply Keeps_weaken; [apply still_steady | apply Still_connect]. Qed.

Lemma Keeps_sendMessage (type : string) (data : Value) :
  Keeps steady (sendMessage type data).
Proof.
  intros s. destruct (sendMessage_eq type data s) as [o Ho].
  eexists _, tt. split; [exact Ho|]. by apply steady_fields.
Qed.

Lemma Keeps_send_intent (i : Intent) : Keeps steady (send_intent env i).
Proof. destruct i; apply Keeps_sendMessage. Qed.

Lemma Keeps_onerror (p : nat) : Keeps steady (onerror p).
Proof.
  unfold onerror. apply Keeps_bind; [apply steady_trans|apply Keeps_console|].
  intros _. apply Keeps_bind; [apply steady_trans| |].
  { apply Keeps_modify. intros s0. by apply steady_fields. }
  intros _. by apply Keeps_setTimeout.
Qed.

Lemma Keeps_run_callback (cb : Callback) : Keeps steady (run_callback env cb).
Proof.
  destruct cb as [|p|p]; cbn [run_callback].
  - apply Keeps_bind; [apply steady_trans|apply Keeps_get, steady_refl|].
    intros s. destruct (decide (ws s = None \/ ws_readyState s = Some CLOSED)).
    + apply Keeps_bind; [apply steady_trans|apply Keeps_connect|].
      intros _. apply Keeps_ret, steady_refl.
    + apply Keeps_ret, steady_refl.
  - apply Keeps_checkConnection.
  - apply Keeps_bind; [apply steady_trans|apply Keeps_get, steady_refl|].
    intros s. destruct (negb (isConnected s)); [apply Keeps_settle|].
    apply Keeps_ret, steady_refl.
Qed.

Lemma set_readyState_steady (i : nat) (r : ReadyState) (s : Service) :
  steady s (set_readyState i r s).
Proof.
  unfold set_readyState. destruct (sockets s !! i); [|apply steady_refl].
  by apply steady_fields.
Qed.

(** ** The calls a handler makes *)

Lemma sendMessage_meddled (type : string) (data : Value) :
  Keeps meddled (sendMessage type data).
Proof.
  intros s. destruct (isConnected s) eqn:Hc.
  - destruct (isConnected_ws s Hc) as (i & Hws & _).
    eexists _, tt. split; [by apply (sendMessage_connected _ _ i)|].
    split; [by apply tame_fields|]. by eexists [_].
  - eexists _, tt. split; [by apply sendMessage_offline|].
    split; [by apply tame_fields|]. by eexists [_].
Qed.

(** A call of a public method from a handler completes; it publishes
    nothing, calls no handler, logs no error, leaves the counter as it
    is and sets no reconnection timer. *)
Lemma do_call_meddled (c : Call) : Keeps meddled (do_call env c).
Proof.
  destruct c as [event h|event h|event h| |u|i]; cbn [do_call].
  - apply Keeps_modify. intros s. by apply meddled_fields.
  - apply Keeps_modify. intros s. unfold unsubscribe.
    destruct (indexOf h (or_empty (eventHandlers s !! event)));
      [by apply meddled_fields | apply meddled_refl].
  - apply Keeps_modify. intros s. destruct h as [h|]; cbn [off].
    + unfold unsubscribe.
      destruct (indexOf h (or_empty (eventHandlers s !! event)));
        [by apply meddled_fields | apply meddled_refl].
    + by apply meddled_fields.
  - apply Keeps_modify. intros s.
    destruct (disconnect_frame s) as (_ & _ & Htm & _ & _ & _ & Hra & Htr & _).
    by apply meddled_fields.
  - apply Keeps_bind; [apply meddled_trans| |].
    + eapply Keeps_weaken; [apply still_meddled | apply Still_connect].
    + intros _. apply Keeps_ret, meddled_refl.
  - destruct i; apply sendMessage_meddled.
Qed.

Lemma do_calls_meddled (cs : list Call) : Keeps meddled (do_calls env cs).
Proof.
  induction cs as [|c cs IH]; cbn [do_calls].
  - apply Keeps_ret, meddled_refl.
  - apply Keeps_bind; [apply meddled_trans | apply do_call_meddled | by intros _].
Qed.




End ServiceBasics.

(* ===================================================================== *)
(** * Properties of the event bus *)
(* ===================================================================== *)

Section BusFacts.

Import WebSocketService.

Variable env : Env.

(** ** What handlers that make no call leave in the trace *)

Lemma calls_of_dispatch (event : string) (data : Value) (handlers : list HandlerRef) :
  calls_of (dispatch env event data handlers) = handlers.
Proof.
  induction handlers as [|h hs IH]; [done|].
  unfold dispatch in *. rewrite bind_cons, calls_of_app, IH.
  unfold handler_effects. by destruct (call env h data).
Qed.

Lemma errors_of_dispatch (event : string) (data : Value) (handlers : list HandlerRef) :
  errors_of (dispatch env event data handlers)
  = (fun error => (("Error in event handler for " ++ event ++ ":")%string, [error]))
      <$> thrown_by env data handlers.
Proof.
  induction handlers as [|h hs IH]; [done|].
  unfold dispatch, thrown_by in *.
  rewrite !bind_cons, errors_of_app, fmap_app, IH.
  unfold handler_effects. by destruct (call env h data).
Qed.

Lemma emitted_of_dispatch (event : string) (data : Value) (handlers : list HandlerRef) :
  emitted_of (dispatch env event data handlers) = [].
Proof.
  induction handlers as [|h hs IH]; [done|].
  unfold dispatch in *. rewrite bind_cons, emitted_of_app, IH.
  unfold handler_effects. by destruct (call env h data).
Qed.

Lemma frames_of_dispatch (event : string) (data : Value) (handlers : list HandlerRef) :
  frames_of (dispatch env event data handlers) = [].
Proof.
  induction handlers as [|h hs IH]; [done|].
  unfold dispatch in *. rewrite bind_cons, frames_of_app, IH.
  unfold handler_effects. by destruct (call env h data).
Qed.

Lemma calls_of_emit_trace (event : string) (data : Value) (s : Service) :
  calls_of (emit_trace env event data s) = registered event s.
Proof.
  unfold emit_trace.
  etransitivity; [exact (calls_of_app [Emit event data] _)|].
  apply calls_of_dispatch.
Qed.

Lemma errors_of_emit_trace (event : string) (data : Value) (s : Service) :
  errors_of (emit_trace env event data s)
  = (fun error => (("Error in event handler for " ++ event ++ ":")%string, [error]))
      <$> thrown_by env data (registered event s).
Proof.
  unfold emit_trace.
  etransitivity; [exact (errors_of_app [Emit event data] _)|].
  apply errors_of_dispatch.
Qed.

Lemma emitted_of_emit_trace (event : string) (data : Value) (s : Service) :
  emitted_of (emit_trace env event data s) = [(event, data)].
Proof.
  unfold emit_trace.
  etransitivity; [exact (emitted_of_app [Emit event data] _)|].
  by rewrite emitted_of_dispatch.
Qed.

Lemma frames_of_emit_trace (event : string) (data : Value) (s : Service) :
  frames_of (emit_trace env event data s) = [].
Proof.
  unfold emit_trace.
  etransitivity; [exact (frames_of_app [Emit event data] _)|].
  by rewrite frames_of_dispatch.
Qed.

(** ** The walk when no handler calls into the service *)

(** One guarded call of a handler that makes no call into the service:
    only the trace changes. *)
Lemma guarded_call_passive (event : string) (data : Value) (h : HandlerRef)
    (s : Service) :
  reenters env h data = [] ->
  try_catch (invoke env h data)
    (fun error =>
       console ERROR ("Error in event handler for " ++ event ++ ":") [error]) s
  = (set_trace (trace s ++ handler_effects env event data h) s, Ok tt).
Proof.
  intros Hno. unfold try_catch, invoke, bind, observe, modify. rewrite Hno.
  cbn [do_calls]. unfold ret, throw, handler_effects.
  destruct (call env h data) as [|error]; [done|].
  unfold console, observe, modify. rewrite set_trace_twice.
  cbn [trace set_trace]. by rewrite <- app_assoc.
Qed.

Lemma forEach_live_passive (event : string) (data : Value) (n : nat) :
  passive env ->
  forall (k : nat) (s : Service),
    k + n = length (registered event s) ->
    forEach_live env event data n k InMap s
    = (set_trace (trace s ++ dispatch env event data (drop k (registered event s))) s,
       Ok tt).
Proof.
  intros Hp. induction n as [|n IH]; intros k s Hlen.
  - rewrite drop_ge by lia. cbn. unfold ret. by rewrite app_nil_r, set_trace_id.
  - cbn [forEach_live]. unfold bind at 1, get. cbn [walked].
    destruct (registered event s !! k) as [h|] eqn:Hk.
    2:{ apply lookup_ge_None in Hk. lia. }
    unfold bind at 1. rewrite guarded_call_passive by apply Hp.
    rewrite Hp. cbn [walk_after].
    rewrite IH by (unfold registered in *; cbn [eventHandlers set_trace]; lia).
    rewrite set_trace_twice. cbn [trace set_trace].
    rewrite (drop_S _ _ _ Hk). unfold dispatch. rewrite bind_cons.
    cbn [registered eventHandlers set_trace]. rewrite <- app_assoc. reflexivity.
Qed.

(** [emit] in one equation, when no handler calls into the service or the
    event has no handler. *)
Lemma emit_eq (event : string) (data : Value) (s : Service) :
  passive env \/ registered event s = [] ->
  emit env event data s
  = (set_trace (trace s ++ emit_trace env event data s) s, Ok tt).
Proof.
  intros Hcase. unfold emit, bind at 1, observe, modify. unfold bind at 1, get.
  cbn [eventHandlers set_trace]. unfold emit_trace.
  destruct Hcase as [Hp|Hno].
  - destruct (eventHandlers s !! event) as [l|] eqn:Hl.
    + rewrite forEach_live_passive; [|exact Hp|unfold registered; cbn; by rewrite Hl].
      rewrite set_trace_twice. cbn [trace set_trace]. rewrite drop_0.
      rewrite <- app_assoc. reflexivity.
    + unfold registered. rewrite Hl. cbn. unfold ret. reflexivity.
  - unfold registered in Hno |- *. rewrite Hno.
    destruct (eventHandlers s !! event) as [l|]; cbn in Hno |- *;
      [subst l|]; cbn; unfold ret; reflexivity.
Qed.

Lemma emit_silent (event : string) (data : Value) (s : Service) :
  registered event s = [] ->
  emit env event data s = (set_trace (trace s ++ [Emit event data]) s, Ok tt).
Proof.
  intros Hno. rewrite emit_eq by (by right). unfold emit_trace. by rewrite Hno.
Qed.

(** ** The walk in general *)

(** A call of a handler ends, by a return or a throw; whatever the
    handler did, the counter is as it was, no reconnection timer was set
    and nothing was published. *)
Lemma invoke_ends (h : HandlerRef) (data : Value) : Ends roused (invoke env h data).
Proof.
  intros s. unfold invoke, bind at 1, observe, modify. unfold bind at 1.
  destruct (do_calls_meddled env (reenters env h data)
              (set_trace (trace s ++ [Called h data]) s)) as (s1 & [] & E & Hm).
  rewrite E.
  assert (Hr : roused s s1).
  { apply (roused_trans _ (set_trace (trace s ++ [Called h data]) s));
      [by apply roused_observe | by apply meddled_roused]. }
  destruct (call env h data) as [|error]; eexists _, _; (split; [reflexivity|done]).
Qed.

(** The walk completes whatever the handlers do. *)
Lemma forEach_live_roused (event : string) (data : Value) (n : nat) :
  forall (k : nat) (w : Walk), Keeps roused (forEach_live env event data n k w).
Proof.
  induction n as [|n IH]; intros k w s; cbn [forEach_live].
  - exists s, tt. split; [done | apply roused_refl].
  - unfold bind at 1, get. destruct (walked event w s !! k) as [h|]; [|apply IH].
    unfold bind at 1, try_catch.
    destruct (invoke_ends h data s) as (s1 & r & E & R1). rewrite E.
    destruct r as [[]|error].
    + destruct (IH (S k) (walk_after env event (reenters env h data) w
                            (observe (Called h data) s).1) s1)
        as (s2 & [] & E2 & R2).
      exists s2, tt. split; [exact E2 | by eapply roused_trans].
    + unfold console at 1, observe at 1, modify at 1.
      destruct (IH (S k) (walk_after env event (reenters env h data) w
                            (observe (Called h data) s).1)
                  (set_trace (trace s1 ++ [Console ERROR
                     ("Error in event handler for " ++ event ++ ":") [error]]) s1))
        as (s2 & [] & E2 & R2).
      exists s2, tt. split; [exact E2|].
      eapply roused_trans; [exact R1|].
      eapply roused_trans; [|exact R2]. by apply roused_observe.
Qed.

(** Whatever the handlers do, [emit] completes; the counter is as it was,
    no reconnection timer was set, and the one publication is its own. *)
Lemma emit_roused (event : string) (data : Value) (s : Service) :
  exists s' t,
    emit env event data s = (s', Ok tt)
    /\ tame s s'
    /\ trace s' = trace s ++ t
    /\ emitted_of t = [(event, data)].
Proof.
  unfold emit, bind at 1, observe, modify. unfold bind at 1, get.
  match goal with |- context [forEach_live env event data ?n ?k ?w ?st] =>
    destruct (forEach_live_roused event data n k w st)
      as (s' & [] & E & Ht & t & Htr & Hem) end.
  exists s', (Emit event data :: t). split; [exact E|].
  split; [exact Ht|]. split.
  - rewrite Htr. cbn [trace set_trace]. by rewrite <- app_assoc.
  - etransitivity; [exact (emitted_of_app [Emit event data] t)|].
    by rewrite Hem.
Qed.



(** ** [emit] *)


(** ** [on] and its unsubscribe function *)

Lemma indexOf_first (h : HandlerRef) (l1 l2 : list HandlerRef) :
  h ∉ l1 -> indexOf h (l1 ++ h :: l2) = Some (length l1).
Proof.
  induction l1 as [|x l1 IH]; intros Hnot; cbn.
  - by rewrite decide_True.
  - apply not_elem_of_cons in Hnot as [Hne Hnot].
    rewrite decide_False by done. by rewrite IH.
Qed.


Lemma delete_middle {A : Type} (l1 l2 : list A) (x : A) :
  delete (length l1) (l1 ++ x :: l2) = l1 ++ l2.
Proof. induction l1 as [|y l1 IH]; [done|]. cbn. f_equal. exact IH. Qed.



End BusFacts.

Section BusExamples.

Import WebSocketService.





(** A handler that throws between two that return: all three are called,
    the error is logged, and [emit] completes. *)
Example emit_with_throwing_handler :
  let s := on "system_alert" 3 (on "system_alert" 2 (on "system_alert" 1 initial)) in
  (emit faulty_env "system_alert" VNull s).2 = Ok tt
  /\ trace (emit faulty_env "system_alert" VNull s).1
     = [ Emit "system_alert" VNull;
         Called 1 VNull;
         Called 2 VNull;
         Console ERROR "Error in event handler for system_alert:" [VStr "boom"];
         Called 3 VNull ].
Proof. intros s. split; vm_compute; reflexivity. Qed.

(** What the walk does when handlers change the array under it.  A
    handler that subscribes another one for the same event: the new
    entry is beyond the length [forEach] read, so it is not called in
    this publication.  A handler that calls [disconnect]: the map is
    cleared, but the walk goes on over the array it holds, so the
    handlers after it are still called. *)
Example walk_over_a_changing_array :
  let subscriber : Env :=
    {| call := fun _ _ => Returns;
       reenters := fun h _ => if decide (h = 1) then [DoOn "chat_response" 3] else [];
       VITE_WS_URL := None; location_protocol := "http:";
       location_host := "localhost:3000"; accepts := fun _ => true; now := "" |} in
  let leaver : Env :=
    {| call := fun _ _ => Returns;
       reenters := fun h _ => if decide (h = 1) then [DoDisconnect] else [];
       VITE_WS_URL := None; location_protocol := "http:";
       location_host := "localhost:3000"; accepts := fun _ => true; now := "" |} in
  let s := on "chat_response" 2 (on "chat_response" 1 initial) in
  calls_of (trace (emit subscriber "chat_response" VNull s).1) = [1; 2]
  /\ registered "chat_response" (emit subscriber "chat_response" VNull s).1 = [1; 2; 3]
  /\ calls_of (trace (emit leaver "chat_response" VNull s).1) = [1; 2]
  /\ eventHandlers (emit leaver "chat_response" VNull s).1 = ∅.
Proof. intros subscriber leaver s. repeat split; vm_compute; reflexivity. Qed.

End BusExamples.

(* ===================================================================== *)
(** * Properties of the transport session *)
(* ===================================================================== *)

Section SessionFacts.

Import WebSocketService.

Variable env : Env.

(** ** [onopen] *)

(** [onopen] completes, marks the attempt as over, resets the attempt
    counter, and leaves [ws], the sockets and the timers as they are,
    when no handler calls into the service or nobody listens to
    [connection_status]. *)
Lemma onopen_frame (p : nat) (s : Service) :
  passive env \/ registered "connection_status" s = [] ->
  exists s', onopen env p s = (s', Ok tt)
    /\ ws s' = ws s /\ sockets s' = sockets s /\ timers s' = timers s
    /\ isConnecting s' = false /\ reconnectAttempts s' = 0.
Proof.
  intros Hcase. unfold onopen, bind at 1, modify. unfold bind at 1, modify.
  unfold bind at 1. rewrite emit_eq by exact Hcase.
  unfold bind at 1.
  match goal with |- context [sendMessage ?t ?d ?st] =>
    destruct (sendMessage_eq t d st) as [o ->] end.
  unfold resolve.
  match goal with |- context [settle ?q ?r ?st] =>
    destruct (settle_eq q r st) as [ps ->] end.
  eexists. split; [reflexivity|]. by destruct s.
Qed.

(** ** [connect] while open *)

Lemma connect_open (u : string) (s : Service) :
  isConnected s = true ->
  connect env u s
  = (set_promises (promises s ++ [Fulfilled]) s, Ok (length (promises s))).
Proof.
  intros Hopen. unfold connect, bind at 1, new_promise.
  unfold bind at 1, get. rewrite isConnected_set_promises, Hopen.
  unfold bind, resolve, settle, modify, ret.
  cbn [promises set_promises].
  rewrite lookup_app_r by done. rewrite Nat.sub_diag. cbn [lookup list_lookup].
  rewrite set_promises_twice. do 2 f_equal.
  rewrite insert_app_r_alt by done. rewrite Nat.sub_diag. reflexivity.
Qed.

(** C7.  In every state in which the connection is open, [connect]
    returns a promise that is already fulfilled and changes nothing else:
    no socket is created and [ws] still names the open socket.  So two
    [connect] calls in such a state give two fulfilled promises and leave
    the one connection there was. *)
Theorem connect_idempotent_while_open (u1 u2 : string) (s : Service) :
  isConnected s = true ->
  connect env u1 s
    = (set_promises (promises s ++ [Fulfilled]) s, Ok (length (promises s)))
  /\ exists s2,
       run env [CallConnect u1; CallConnect u2] s = Some s2
       /\ s2 = set_promises (promises s ++ [Fulfilled; Fulfilled]) s
       /\ sockets s2 = sockets s
       /\ ws s2 = ws s
       /\ isConnected s2 = true.
Proof.
  intros Hopen. split; [by apply connect_open|].
  eexists. split.
  - cbn [run react]. unfold bind at 1. rewrite connect_open by done.
    unfold ret at 1. unfold bind at 1.
    rewrite connect_open by (by rewrite isConnected_set_promises).
    unfold ret. reflexivity.
  - cbn [promises set_promises]. rewrite set_promises_twice, <- app_assoc.
    split; [reflexivity|]. by rewrite isConnected_set_promises.
Qed.

(** ** Closes and the backoff *)

Lemma handleReconnect_below (s : Service) :
  reconnectAttempts s < maxReconnectAttempts ->
  handleReconnect env s
  = (set_timers
       (timers s ++ [(reconnectDelay * 2 ^ (S (reconnectAttempts s) - 1), Reconnect)])
       (set_reconnectAttempts (S (reconnectAttempts s)) s),
     Ok tt).
Proof.
  intros Hlt. unfold handleReconnect, bind at 1, get.
  rewrite decide_False by lia.
  unfold bind, modify, get, setTimeout. reflexivity.
Qed.

(** Once the counter has reached its maximum, [handleReconnect] logs and
    publishes [connection_failed] with the counter; whatever the
    handlers do, the counter stays and no reconnection timer is set. *)
Lemma handleReconnect_exhausted (s : Service) :
  maxReconnectAttempts <= reconnectAttempts s ->
  exists s' t,
    handleReconnect env s = (s', Ok tt)
    /\ tame s s'
    /\ trace s' = trace s ++ Console ERROR "Max reconnection attempts reached" [] :: t
    /\ emitted_of t
       = [("connection_failed",
           VObj {[ "attempts" := VInt (Z.of_nat (reconnectAttempts s)) ]})]
    /\ (passive env ->
        s' = set_trace (trace s ++ Console ERROR "Max reconnection attempts reached" []
                          :: t) s
        /\ calls_of t = registered "connection_failed" s).
Proof.
  intros Hge. unfold handleReconnect, bind at 1, get.
  rewrite decide_True by done.
  unfold bind at 1, console, observe, modify.
  set (s0 := set_trace _ s).
  destruct (emit_roused env "connection_failed"
              (VObj {[ "attempts" := VInt (Z.of_nat (reconnectAttempts s)) ]}) s0)
    as (s' & t & E & Htame & Htr & Hem).
  exists s', t. split; [exact E|]. split; [exact Htame|].
  assert (Htr' : trace s'
                 = trace s ++ Console ERROR "Max reconnection attempts reached" [] :: t).
  { rewrite Htr. unfold s0. cbn [trace set_trace]. by rewrite <- app_assoc. }
  split; [exact Htr'|]. split; [exact Hem|].
  intros Hp. rewrite emit_eq in E by (by left). injection E as Hs'.
  assert (Ht : t = emit_trace env "connection_failed"
                     (VObj {[ "attempts" := VInt (Z.of_nat (reconnectAttempts s)) ]}) s0).
  { rewrite <- Hs' in Htr. cbn [trace set_trace] in Htr.
    by apply app_inv_head in Htr. }
  split.
  - rewrite <- Hs', <- Ht. unfold s0. rewrite set_trace_twice.
    cbn [trace set_trace]. by rewrite <- app_assoc.
  - rewrite Ht. exact (calls_of_emit_trace env _ _ s0).
Qed.

(** What a reconnection timer does when it expires: it calls [connect]
    with the stored URL when [ws] is unset or names a closed socket, and
    nothing otherwise. *)
Lemma reconnect_timer_fires (k d : nat) (s : Service) :
  timers s !! k = Some (d, Reconnect) ->
  react env (TimerFire k) s
  = Some (if decide (ws s = None \/ ws_readyState s = Some CLOSED)
          then (_ <- connect env (url s) ;; ret tt)
                 (set_timers (delete k (timers s)) s)
          else (set_timers (delete k (timers s)) s, Ok tt)).
Proof.
  intros Hk. cbn [react]. rewrite Hk. cbn [mbind option_bind snd run_callback].
  unfold bind at 1, get. cbn [ws url set_timers].
  change (ws_readyState (set_timers (delete k (timers s)) s))
    with (ws_readyState s).
  by destruct (decide (ws s = None \/ ws_readyState s = Some CLOSED)).
Qed.

(** C2, as the code has it.  On every close event whose code is not 1000,
    whatever brought the close about and whatever the handlers do: while
    the attempt counter [n] is below 5 the counter becomes [n + 1] and
    exactly one reconnection timer is added, the last of the pending
    timers, due after 1000 * 2^((n+1) - 1) milliseconds, and
    [connection_failed] is not published; once the counter has reached 5
    no reconnection timer is added, the counter stays, and
    [connection_failed] is published exactly once by that close, carrying
    the counter.  In both cases the only other publication is the
    [connection_status] of the close, and [onclose] completes.  When no
    handler calls into the service the timers are otherwise untouched
    and the handlers called are exactly those of [connection_status],
    followed in the second case by those of [connection_failed].  A
    reconnection timer that expires calls [connect] with the stored URL
    when [ws] is unset or names a closed socket, and does nothing
    otherwise. *)
Theorem unclean_close_backoff (code : nat) (reason : string) (s : Service) :
  code ≠ 1000 ->
  let n := reconnectAttempts s in
  let status :=
    ("connection_status",
     VObj (<[ "connected" := VBool false ]> {[ "reason" := VStr reason ]})) in
  let failed := ("connection_failed", VObj {[ "attempts" := VInt (Z.of_nat n) ]}) in
  exists s' t,
    onclose env code reason s = (s', Ok tt)
    /\ trace s' = trace s ++ t
    /\ (if decide (n < 5) then
          reconnectAttempts s' = S n
          /\ reconnect_delays s' = reconnect_delays s ++ [1000 * 2 ^ (S n - 1)]
          /\ last (timers s') = Some (1000 * 2 ^ (S n - 1), Reconnect)
          /\ emitted_of t = [status]
        else
          reconnectAttempts s' = n
          /\ reconnect_delays s' = reconnect_delays s
          /\ emitted_of t = [status; failed])
    /\ (passive env ->
        timers s'
        = timers s
            ++ (if decide (n < 5) then [(1000 * 2 ^ (S n - 1), Reconnect)] else [])
        /\ calls_of t
           = registered "connection_status" s
               ++ (if decide (n < 5) then [] else registered "connection_failed" s))
    /\ (forall k d s2, timers s2 !! k = Some (d, Reconnect) ->
          react env (TimerFire k) s2
          = Some (if decide (ws s2 = None \/ ws_readyState s2 = Some CLOSED)
                  then (_ <- connect env (url s2) ;; ret tt)
                         (set_timers (delete k (timers s2)) s2)
                  else (set_timers (delete k (timers s2)) s2, Ok tt))).
Proof.
  intros Hcode n status failed. subst n status failed.
  unfold onclose, bind at 1, modify. unfold bind at 1.
  destruct (emit_roused env "connection_status"
              (VObj (<[ "connected" := VBool false ]> {[ "reason" := VStr reason ]}))
              (set_isConnecting false s))
    as (s1 & t1 & E1 & Htame1 & Htr1 & Hem1).
  rewrite E1. rewrite decide_True by done.
  pose proof (tame_delays _ _ Htame1) as Hd1.
  destruct Htame1 as (Hra1 & x1 & Htm1 & Hx1).
  cbn [reconnectAttempts timers trace set_isConnecting] in Hra1, Htm1, Htr1.
  change (reconnect_delays (set_isConnecting false s))
    with (reconnect_delays s) in Hd1.
  assert (Hpass : passive env ->
            timers s1 = timers s /\ calls_of t1 = registered "connection_status" s).
  { intros Hp. rewrite emit_eq in E1 by (by left). injection E1 as Hs1.
    rewrite <- Hs1 in Htr1 |- *. cbn [trace timers set_trace set_isConnecting] in Htr1 |- *.
    apply app_inv_head in Htr1. split; [done|]. rewrite <- Htr1.
    exact (calls_of_emit_trace env _ _ (set_isConnecting false s)). }
  destruct (decide (reconnectAttempts s < 5)) as [Hlt|Hge].
  - rewrite handleReconnect_below by (rewrite Hra1; exact Hlt).
    eexists _, t1. split; [reflexivity|].
    cbn [trace timers reconnectAttempts set_timers set_reconnectAttempts].
    split; [exact Htr1|]. rewrite Hra1. unfold reconnectDelay.
    split; [|split]; [|..|intros k d s2; apply reconnect_timer_fires].
    + split; [reflexivity|]. split; [|split; [apply last_snoc | exact Hem1]].
      unfold reconnect_delays at 1. cbn [timers set_timers set_reconnectAttempts].
      rewrite bind_app. fold (reconnect_delays s1). rewrite Hd1. reflexivity.
    + intros Hp. destruct (Hpass Hp) as [-> ->]. by rewrite app_nil_r.
  - destruct (handleReconnect_exhausted s1) as (s2 & t2 & E2 & Htame2 & Htr2 & Hem2 & Hp2).
    { rewrite Hra1. unfold maxReconnectAttempts. lia. }
    rewrite E2. rewrite Hra1 in Hem2.
    exists s2, (t1 ++ Console ERROR "Max reconnection attempts reached" [] :: t2).
    split; [reflexivity|]. split; [by rewrite Htr2, Htr1, <- app_assoc|].
    split; [|split]; [|..|intros k d s2'; apply reconnect_timer_fires].
    + pose proof (tame_delays _ _ Htame2) as Hd2.
      destruct Htame2 as (Hra2 & _).
      split; [congruence|]. split; [congruence|].
      rewrite emitted_of_app, Hem1.
      change (emitted_of (Console ERROR "Max reconnection attempts reached" [] :: t2))
        with (emitted_of t2).
      by rewrite Hem2.
    + intros Hp. destruct (Hpass Hp) as [Htm Hc1].
      destruct (Hp2 Hp) as [-> Hc2]. cbn [timers set_trace].
      rewrite Htm, app_nil_r. split; [reflexivity|].
      rewrite calls_of_app, Hc1.
      change (calls_of (Console ERROR "Max reconnection attempts reached" [] :: t2))
        with (calls_of t2).
      rewrite Hc2. f_equal.
      apply registered_frame. rewrite emit_eq in E1 by (by left).
      injection E1 as <-. reflexivity.
Qed.

(** ** [disconnect] and a pending reconnection *)



End SessionFacts.

Section SessionExamples.

Import WebSocketService.



(** A close with code 1006 of the first connection of the fresh service,
    with a listener of [connection_status]. *)
Lemma unclean_close_backoff_witness :
  exists s' t,
    onclose quiet_env 1006 "" (on "connection_status" 4 initial) = (s', Ok tt)
    /\ trace s' = t
    /\ reconnectAttempts s' = 1
    /\ reconnect_delays s' = [1000]
    /\ timers s' = [(1000, Reconnect)]
    /\ calls_of t = [4].
Proof.
  destruct (unclean_close_backoff quiet_env 1006 "" (on "connection_status" 4 initial))
    as (s' & t & Hc & Htr & H & Hp & _).
  { discriminate. }
  exists s', t. split; [exact Hc|]. split; [exact Htr|].
  destruct H as (Hn & Hd & _). split; [exact Hn|]. split; [exact Hd|].
  destruct Hp as [Ht Hcalls]; [intros h data; reflexivity|].
  split; [exact Ht | exact Hcalls].
Defined.

(** C2 as stated fails in two ways.  [connection_failed] is not terminal
    and not published once: the counter stays at 5 until a socket opens,
    so when [connect] is called again after the reconnections are
    exhausted and that attempt fails too, [connection_failed] is
    published a second time, to the same listener, and no reconnection
    is scheduled.  And the closes that schedule a reconnection are those
    with a code other than 1000, not those that [disconnect] did not
    bring about: [disconnect] while the socket is still connecting makes
    the browser fail the connection and report a close with code 1006,
    which schedules a reconnection; a close with code 1000 sent by the
    server schedules none. *)
Lemma connection_failed_is_published_again :
  let again :=
    CallOn "connection_failed" 9
      :: five_failed_reconnections ++ [CallConnect "/"; SockFail 6] in
  let failed (s : Service) :=
    filter (fun e => e.1 = "connection_failed") (emitted_of (trace s)) in
  (exists s,
     run quiet_env again initial = Some s
     /\ failed s = [ ("connection_failed", VObj {[ "attempts" := VInt 5 ]});
                     ("connection_failed", VObj {[ "attempts" := VInt 5 ]}) ]
     /\ calls_of (trace s) = [9; 9]
     /\ reconnectAttempts s = 5
     /\ reconnect_delays s = [])
  /\ (exists s,
        run quiet_env [CallConnect "/"; CallDisconnect; SockFail 0] initial = Some s
        /\ ws s = None
        /\ reconnect_delays s = [1000])
  /\ (exists s,
        run quiet_env [CallConnect "/"; SockOpen 0; SockClose 0 1000 "bye"] initial
        = Some s
        /\ isConnected s = false
        /\ timers s = [])
  /\ ~ (forall es s, run quiet_env es initial = Some s -> length (failed s) <= 1).
Proof.
  intros again failed.
  assert (Hrun : exists s,
            run quiet_env again initial = Some s
            /\ failed s = [ ("connection_failed", VObj {[ "attempts" := VInt 5 ]});
                            ("connection_failed", VObj {[ "attempts" := VInt 5 ]}) ]
            /\ calls_of (trace s) = [9; 9]
            /\ reconnectAttempts s = 5
            /\ reconnect_delays s = []).
  { eexists. split; [vm_compute; reflexivity|]. repeat split; vm_compute; reflexivity. }
  split; [exact Hrun|]. split; [|split].
  - eexists. split; [vm_compute; reflexivity|]. split; reflexivity.
  - eexists. split; [vm_compute; reflexivity|]. split; reflexivity.
  - intros Hclaim. destruct Hrun as (s & Hs & Hf & _).
    specialize (Hclaim again s Hs). rewrite Hf in Hclaim. cbn in Hclaim. lia.
Qed.

(** The first attempt and five reconnections that all fail.  The
    reconnections are set 1000, 2000, 4000, 8000 and 16000 ms after the
    failures; the failure of the fifth reconnection sets none and
    publishes [connection_failed] with 5 attempts, once. *)
Example backoff_schedule :
  let r0 := [CallConnect "/"; SockFail 0] in
  let r1 := r0 ++ [TimerFire 1; SockFail 1] in
  let r2 := r1 ++ [TimerFire 0; TimerFire 0; TimerFire 0; SockFail 2] in
  let r3 := r2 ++ [TimerFire 0; TimerFire 0; SockFail 3] in
  let r4 := r3 ++ [TimerFire 0; TimerFire 0; SockFail 4] in
  let r5 := r4 ++ [TimerFire 0; TimerFire 0; SockFail 5] in
  let failed (s : Service) :=
    filter (fun e => e.1 = "connection_failed") (emitted_of (trace s)) in
  reconnect_delays <$> run quiet_env r0 initial = Some [1000]
  /\ reconnect_delays <$> run quiet_env r1 initial = Some [2000]
  /\ reconnect_delays <$> run quiet_env r2 initial = Some [4000]
  /\ reconnect_delays <$> run quiet_env r3 initial = Some [8000]
  /\ reconnect_delays <$> run quiet_env r4 initial = Some [16000]
  /\ failed <$> run quiet_env r4 initial = Some []
  /\ reconnect_delays <$> run quiet_env r5 initial = Some []
  /\ failed <$> run quiet_env r5 initial
     = Some [("connection_failed", VObj {[ "attempts" := VInt 5 ]})]
  /\ length <$> (sockets <$> run quiet_env r5 initial) = Some 6.
Proof. repeat split; vm_compute; reflexivity. Qed.

(** Two more [connect] calls after the connection was opened. *)
Lemma connect_idempotent_while_open_witness :
  isConnected opened = true
  /\ exists s2,
       run quiet_env [CallConnect "/"; CallConnect "/"] opened = Some s2
       /\ length (sockets s2) = 1
       /\ promises s2 = [Fulfilled; Fulfilled; Fulfilled].
Proof.
  split; [reflexivity|].
  destruct (connect_idempotent_while_open quiet_env "/" "/" opened eq_refl)
    as (_ & s2 & Hrun & Heq & Hsk & _).
  exists s2. split; [exact Hrun|]. split.
  - rewrite Hsk. reflexivity.
  - rewrite Heq. reflexivity.
Defined.

End SessionExamples.

(* ===================================================================== *)
(** * Further properties of the store *)
(* ===================================================================== *)

Section StoreMore.

Import Store.

(** ** Spread, again *)

Lemma spread_assoc (a u1 u2 : Obj) : spread (spread a u1) u2 = spread a (spread u1 u2).
Proof. unfold spread. by rewrite (assoc_L (∪)). Qed.

Lemma spread_nothing (a : Obj) : spread a ∅ = a.
Proof. unfold spread. by rewrite (left_id_L ∅ (∪)). Qed.

Lemma spread_twice (a u : Obj) : spread (spread a u) u = spread a u.
Proof. rewrite spread_assoc. unfold spread. by rewrite (idemp_L (∪)). Qed.

(** A property overwritten by a later spread can be dropped. *)
Lemma spread_overwritten (a p : Obj) (k : string) (v : Value) :
  is_Some (p !! k) -> spread (spread a {[ k := v ]}) p = spread a p.
Proof.
  intros [w Hw]. apply map_eq. intros j. rewrite !spread_lookup.
  destruct (p !! j) as [x|] eqn:Hj; [done|].
  destruct (decide (j = k)) as [->|Hne]; [congruence|].
  by rewrite lookup_singleton_ne.
Qed.

Lemma spread_singleton_twice (a : Obj) (k : string) (v w : Value) :
  spread (spread a {[ k := v ]}) {[ k := w ]} = spread a {[ k := w ]}.
Proof. apply spread_overwritten. rewrite lookup_singleton_eq. eauto. Qed.

Lemma set_ui_twice (u1 u2 : Obj) (s : AppState) :
  set_ui u2 (set_ui u1 s) = set_ui u2 s.
Proof. by destruct s. Qed.

Lemma set_ui_id (s : AppState) : set_ui (ui s) s = s.
Proof. by destruct s. Qed.

Lemma set_typingUsers_twice (t1 t2 : gset string) (s : AppState) :
  set_typingUsers t2 (set_typingUsers t1 s) = set_typingUsers t2 s.
Proof. by destruct s. Qed.

(** Adding or removing one element after adding or removing it. *)
Lemma typing_last_wins (u : string) (X : gset string) :
  (X ∪ {[ u ]} ∪ {[ u ]} = X ∪ {[ u ]}
   /\ X ∖ {[ u ]} ∪ {[ u ]} = X ∪ {[ u ]})
  /\ ((X ∪ {[ u ]}) ∖ {[ u ]} = X ∖ {[ u ]}
      /\ X ∖ {[ u ]} ∖ {[ u ]} = X ∖ {[ u ]}).
Proof.
  repeat split; apply set_eq; intros x;
    rewrite ?elem_of_difference, ?elem_of_union, ?elem_of_difference,
      ?elem_of_singleton;
    destruct (decide (x = u)); tauto.
Qed.

(** ** Typing indicators *)

(** X1.  [setTypingUser u b] makes the presence of [u] in the set equal to
    [b], whatever it was and however often [u] was reported before; the
    presence of every other user is unchanged; repeating the call changes
    nothing; and of two calls for the same user the later one decides. *)
Theorem setTypingUser_presence (u : string) (b : bool) (s : AppState) :
  let s' := setTypingUser u b s in
  (u ∈ typingUsers s' <-> b = true)
  /\ typingUsers s' ∖ {[ u ]} = typingUsers s ∖ {[ u ]}
  /\ setTypingUser u b s' = s'
  /\ (forall b0 : bool, setTypingUser u b (setTypingUser u b0 s) = s')
  /\ s' = set_typingUsers (typingUsers s') s.
Proof.
  intros s'. subst s'. unfold setTypingUser.
  split; [|split; [|split; [|split]]].
  - destruct b; cbn [typingUsers set_typingUsers].
    + split; [done|]. intros _. apply elem_of_union_r. by apply elem_of_singleton.
    + split; [|done]. intros H. apply elem_of_difference in H as [_ H].
      exfalso. apply H. by apply elem_of_singleton.
  - destruct b; cbn [typingUsers set_typingUsers]; apply set_eq; intros x;
      rewrite ?elem_of_difference, ?elem_of_union, ?elem_of_singleton; tauto.
  - rewrite set_typingUsers_twice. cbn [typingUsers set_typingUsers].
    destruct b; f_equal; apply typing_last_wins.
  - intros b0. rewrite set_typingUsers_twice. cbn [typingUsers set_typingUsers].
    destruct b, b0; f_equal; apply typing_last_wins.
  - by destruct s.
Qed.

(** ** Clearing a conversation *)

(** X2.  After [clearConversation id], whatever the conversation held and
    whether or not it existed, the messages added next are all it holds;
    the other conversations are as before; clearing twice is clearing
    once. *)
Theorem clearConversation_then_addMessages (id : string) (ms : list Obj)
    (s : AppState) :
  conversations (addMessages id ms (clearConversation id s)) !! id = Some ms
  /\ delete id (conversations (addMessages id ms (clearConversation id s)))
     = delete id (conversations s)
  /\ clearConversation id (clearConversation id s) = clearConversation id s.
Proof.
  split; [|split].
  - pose proof (addMessages_this id ms (clearConversation id s)) as Hthis.
    destruct ms as [|m ms].
    + cbn. by rewrite lookup_insert_eq.
    + destruct (addMessages_present id m ms (clearConversation id s)) as [l Hl].
      rewrite Hl in Hthis |- *. cbn in Hthis.
      rewrite lookup_insert_eq in Hthis. cbn in Hthis. by rewrite Hthis.
  - apply map_eq. intros other.
    destruct (decide (other = id)) as [->|Hne].
    + by rewrite !lookup_delete_eq.
    + rewrite !lookup_delete_ne by done.
      rewrite addMessages_other by done. cbn. by rewrite lookup_insert_ne.
  - unfold clearConversation. rewrite set_conversations_twice. cbn.
    by rewrite insert_insert_eq.
Qed.

(** ** Merging by id *)

Lemma set_mcpServers_twice (l1 l2 : list Obj) (s : AppState) :
  set_mcpServers l2 (set_mcpServers l1 s) = set_mcpServers l2 s.
Proof. by destruct s. Qed.

Lemma merge_if_idemp (i : string) (updates o : Obj) :
  merge_if i updates (merge_if i updates o) = merge_if i updates o.
Proof.
  unfold merge_if. destruct (id_is i o) eqn:Ho; [|by rewrite Ho].
  destruct (id_is i (spread o updates)); [|done]. apply spread_twice.
Qed.

(** X3.  [updateMessage] and [updateMCPServer] are idempotent: applying the
    same update a second time changes nothing, also when the update
    carries an [id] of its own. *)
Theorem update_by_id_idempotent (conversationId i : string) (updates : Obj)
    (s : AppState) :
  updateMessage conversationId i updates (updateMessage conversationId i updates s)
    = updateMessage conversationId i updates s
  /\ updateMCPServer i updates (updateMCPServer i updates s)
     = updateMCPServer i updates s.
Proof.
  split.
  - unfold updateMessage. rewrite set_conversations_twice. cbn.
    rewrite lookup_insert_eq, insert_insert_eq. cbn [or_empty].
    do 2 f_equal. rewrite <- list_fmap_compose.
    apply list_fmap_ext. intros j o _. apply (merge_if_idemp i updates o).
  - unfold updateMCPServer. rewrite set_mcpServers_twice.
    cbn [mcpServers set_mcpServers]. f_equal.
    rewrite <- list_fmap_compose.
    apply list_fmap_ext. intros j o _. apply (merge_if_idemp i updates o).
Qed.

Lemma id_is_spread (i : string) (o updates : Obj) :
  updates !! "id" = None -> id_is i (spread o updates) = id_is i o.
Proof. intros Hno. unfold id_is. by rewrite spread_lookup, Hno. Qed.

Lemma id_is_merge_if (i j : string) (o updates : Obj) :
  updates !! "id" = None -> id_is i (merge_if j updates o) = id_is i o.
Proof.
  intros Hno. unfold merge_if. destruct (id_is j o); [|done].
  by apply id_is_spread.
Qed.

(** X4.  An update that carries no [id] field changes no id: after
    [updateMessage] and after [updateMCPServer], each position holds a
    record with the same id as before, so the same records are found by
    the same ids. *)
Theorem update_without_id_keeps_ids (conversationId i : string) (updates : Obj)
    (s : AppState) :
  updates !! "id" = None ->
  forall j : string,
    id_is j <$> or_empty (conversations
                            (updateMessage conversationId i updates s) !! conversationId)
      = id_is j <$> or_empty (conversations s !! conversationId)
    /\ id_is j <$> mcpServers (updateMCPServer i updates s)
       = id_is j <$> mcpServers s.
Proof.
  intros Hno j. split.
  - unfold updateMessage. cbn. rewrite lookup_insert_eq. cbn [or_empty].
    rewrite <- list_fmap_compose. apply list_fmap_ext.
    intros k o _. apply (id_is_merge_if j i o updates Hno).
  - unfold updateMCPServer. cbn.
    rewrite <- list_fmap_compose. apply list_fmap_ext.
    intros k o _. apply (id_is_merge_if j i o updates Hno).
Qed.

Lemma update_without_id_keeps_ids_witness :
  id_is "fs" <$> mcpServers
                   (updateMCPServer "fs" {[ "status" := VStr "running" ]}
                      (updateMCPServers [sample_server] initialState))
  = [true].
Proof.
  assert (Hno : ({[ "status" := VStr "running" ]} : Obj) !! "id" = None)
    by (vm_compute; reflexivity).
  destruct (update_without_id_keeps_ids "default" "fs"
              {[ "status" := VStr "running" ]}
              (updateMCPServers [sample_server] initialState) Hno "fs")
    as [_ H].
  rewrite H. reflexivity.
Defined.

(** ** Partial updates of the snapshots *)

(** X5.  Two partial updates of the evolution snapshot (or of the reasoning
    snapshot) in a row are one update with the second spread over the
    first, and the empty update changes nothing. *)
Theorem snapshot_updates_compose (u1 u2 : Obj) (s : AppState) :
  updateEvolutionState u2 (updateEvolutionState u1 s)
    = updateEvolutionState (spread u1 u2) s
  /\ updateReasoningState u2 (updateReasoningState u1 s)
     = updateReasoningState (spread u1 u2) s
  /\ updateEvolutionState ∅ s = s
  /\ updateReasoningState ∅ s = s.
Proof.
  unfold updateEvolutionState, updateReasoningState.
  destruct s; cbn. rewrite !spread_assoc, !spread_nothing. done.
Qed.

(** ** Notifications *)

Lemma spread_same (a : Obj) (k : string) (v : Value) :
  a !! k = Some v -> spread a {[ k := v ]} = a.
Proof.
  intros Hk. unfold spread. rewrite <- insert_union_singleton_l.
  by apply insert_id.
Qed.

Lemma spread_singleton_lookup (a : Obj) (k : string) (v : Value) :
  spread a {[ k := v ]} !! k = Some v.
Proof. by rewrite spread_lookup, lookup_singleton_eq. Qed.

Lemma spread_singleton_other (a : Obj) (k j : string) (v : Value) :
  j ≠ k -> spread a {[ k := v ]} !! j = a !! j.
Proof. intros Hne. by rewrite spread_lookup, lookup_singleton_ne. Qed.

Lemma notifications_of_spread (u : Obj) (l : list Value) :
  notifications_of (spread u {[ "notifications" := VArr l ]}) = l.
Proof. unfold notifications_of. by rewrite spread_singleton_lookup. Qed.

Lemma notifications_of_typed (u : Obj) (l : list Value) :
  u !! "notifications" = Some (VArr l) -> notifications_of u = l.
Proof. intros H. unfold notifications_of. by rewrite H. Qed.

Lemma filter_keeps_all {A : Type} (f : A -> bool) (l : list A) :
  (forall x, x ∈ l -> f x = true) -> List.filter f l = l.
Proof.
  induction l as [|x l IH]; intros H; [done|]. cbn.
  rewrite H by left. f_equal. apply IH. intros y Hy. apply H. by right.
Qed.

(** X6.  In a state whose [ui.notifications] is an array,
    [addNotification] appends one notification and keeps the earlier ones
    in place; the new one has the generated id, the given timestamp and
    [read = false] even if the caller passed values for these fields, and
    the caller's value for every other field; no other field of [ui] and
    no other field of the store changes. *)
Theorem addNotification_appends_unread (notification : Obj) (newId : string)
    (timestamp : Value) (l : list Value) (s : AppState) :
  ui s !! "notifications" = Some (VArr l) ->
  let s' := addNotification notification newId timestamp s in
  exists n : Obj,
    notifications_of (ui s') = l ++ [VObj n]
    /\ n !! "id" = Some (VStr newId)
    /\ n !! "timestamp" = Some timestamp
    /\ n !! "read" = Some (VBool false)
    /\ (forall k, k ≠ "id" -> k ≠ "timestamp" -> k ≠ "read" ->
          n !! k = notification !! k)
    /\ (forall k, k ≠ "notifications" -> ui s' !! k = ui s !! k)
    /\ s' = set_ui (ui s') s.
Proof.
  intros Hl s'. subst s'. unfold addNotification. cbn [ui set_ui].
  eexists. split.
  { rewrite notifications_of_spread, (notifications_of_typed _ _ Hl). reflexivity. }
  split; [by rewrite spread_lookup|]. split; [by rewrite spread_lookup|].
  split; [by rewrite spread_lookup|]. split; [|split].
  - intros k H1 H2 H3. rewrite spread_lookup.
    cbn. rewrite !lookup_insert_ne by done. by rewrite lookup_empty.
  - intros k Hk. by apply spread_singleton_other.
  - reflexivity.
Qed.

(** The sample notification, passed with [read = true], added to the
    initial store. *)
Lemma addNotification_appends_unread_witness :
  exists n : Obj,
    notifications_of (ui (addNotification sample_notification "n-1" VNull initialState))
      = [VObj n]
    /\ n !! "read" = Some (VBool false)
    /\ n !! "title" = Some (VStr "Saved").
Proof.
  destruct (addNotification_appends_unread sample_notification "n-1" VNull []
              initialState eq_refl)
    as (n & Hn & _ & _ & Hread & Hother & _).
  exists n. split; [exact Hn|]. split; [exact Hread|].
  rewrite (Hother "title"); [reflexivity | discriminate..].
Defined.

(** X7.  In a state whose [ui.notifications] is an array,
    [removeNotification id] keeps exactly the notifications whose id is
    not [id], in their order; when none has that id the store is unchanged;
    and removing a notification that was just added under an id no earlier
    notification has restores the store. *)
Theorem removeNotification_filters (id : string) (l : list Value) (s : AppState) :
  ui s !! "notifications" = Some (VArr l) ->
  let s' := removeNotification id s in
  notifications_of (ui s')
    = List.filter (fun n => negb (notification_id_is id n)) l
  /\ (forall n, n ∈ notifications_of (ui s') <->
                n ∈ l /\ notification_id_is id n = false)
  /\ (forall k, k ≠ "notifications" -> ui s' !! k = ui s !! k)
  /\ ((forall n, n ∈ l -> notification_id_is id n = false) ->
      s' = s
      /\ forall notification timestamp,
           removeNotification id (addNotification notification id timestamp s) = s).
Proof.
  intros Hl s'. subst s'.
  assert (Hfil : notifications_of (ui (removeNotification id s))
                 = List.filter (fun n => negb (notification_id_is id n)) l).
  { unfold removeNotification. cbn [ui set_ui].
    by rewrite notifications_of_spread, (notifications_of_typed _ _ Hl). }
  split; [exact Hfil|]. split; [|split].
  - intros n. rewrite Hfil, list_elem_of_In, filter_In, <- list_elem_of_In.
    by rewrite negb_true_iff.
  - intros k Hk. unfold removeNotification. cbn [ui set_ui].
    by apply spread_singleton_other.
  - intros Hnone.
    assert (Hall : List.filter (fun n => negb (notification_id_is id n)) l = l).
    { apply filter_keeps_all. intros n Hn. by rewrite (Hnone n Hn). }
    split.
    + unfold removeNotification. rewrite (notifications_of_typed _ _ Hl), Hall.
      rewrite (spread_same _ _ _ Hl). apply set_ui_id.
    + intros notification timestamp.
      unfold removeNotification, addNotification.
      rewrite set_ui_twice. cbn [ui set_ui].
      rewrite notifications_of_spread, (notifications_of_typed _ _ Hl).
      rewrite List.filter_app, Hall. cbn [List.filter notification_id_is].
      assert (Hid : id_is id
                      (spread notification
                         (list_to_map
                            [("id", VStr id); ("timestamp", timestamp);
                             ("read", VBool false)])) = true).
      { unfold id_is. rewrite spread_lookup. cbn.
        rewrite lookup_insert_eq. by apply bool_decide_eq_true. }
      rewrite Hid. cbn [negb]. rewrite app_nil_r.
      rewrite spread_singleton_twice, (spread_same _ _ _ Hl).
      apply set_ui_id.
Qed.

Lemma removeNotification_filters_witness :
  removeNotification "n-1" (addNotification sample_notification "n-1" VNull initialState)
  = initialState.
Proof.
  destruct (removeNotification_filters "n-1" [] initialState eq_refl)
    as (_ & _ & _ & H).
  destruct H as [_ Hround].
  - intros n Hn. by apply elem_of_nil in Hn.
  - apply Hround.
Defined.

(** What [markNotificationRead] does to one element. *)
Lemma mark_read_ids (id : string) (l : list Value) :
  (fun n => match n with
            | VObj o => match o !! "id" with Some (VStr i) => Some i | _ => None end
            | _ => None
            end)
    <$> ((fun n => match n with
                   | VObj o =>
                       if id_is id o
                       then VObj (spread o {[ "read" := VBool true ]})
                       else n
                   | _ => n
                   end) <$> l)
  = (fun n => match n with
              | VObj o => match o !! "id" with Some (VStr i) => Some i | _ => None end
              | _ => None
              end) <$> l.
Proof.
  rewrite <- list_fmap_compose. apply list_fmap_ext. intros j n _. cbn.
  destruct n as [| | | | | |o]; try done.
  destruct (id_is id o); [|done].
  by rewrite spread_singleton_other.
Qed.

(** X8.  In a state whose [ui.notifications] is an array,
    [markNotificationRead id] keeps the number, the order and the ids of
    the notifications; afterwards every notification whose id is [id] has
    [read = true]; marking again changes nothing. *)
Theorem markNotificationRead_marks (id : string) (l : list Value) (s : AppState) :
  ui s !! "notifications" = Some (VArr l) ->
  let s' := markNotificationRead id s in
  length (notifications_of (ui s')) = length l
  /\ notification_ids (ui s') = notification_ids (ui s)
  /\ (forall o, VObj o ∈ notifications_of (ui s') -> id_is id o = true ->
        o !! "read" = Some (VBool true))
  /\ markNotificationRead id s' = s'.
Proof.
  intros Hl s'. subst s'.
  set (f := fun n => match n with
                     | VObj o =>
                         if id_is id o
                         then VObj (spread o {[ "read" := VBool true ]})
                         else n
                     | _ => n
                     end).
  assert (Hn : notifications_of (ui (markNotificationRead id s)) = f <$> l).
  { unfold markNotificationRead. cbn [ui set_ui].
    by rewrite notifications_of_spread, (notifications_of_typed _ _ Hl). }
  split; [by rewrite Hn, length_fmap|]. split; [|split].
  - unfold notification_ids. rewrite Hn, (notifications_of_typed _ _ Hl).
    apply mark_read_ids.
  - intros o Ho Hid. rewrite Hn in Ho.
    apply list_elem_of_fmap in Ho as (n & Heq & _).
    destruct n as [| | | | | |o0]; try discriminate Heq. cbn in Heq.
    destruct (id_is id o0) eqn:H0.
    + injection Heq as ->. apply spread_singleton_lookup.
    + injection Heq as ->. congruence.
  - unfold markNotificationRead at 1. rewrite Hn.
    unfold markNotificationRead. rewrite set_ui_twice. cbn [ui set_ui].
    rewrite (notifications_of_typed _ _ Hl). fold f.
    rewrite spread_singleton_twice.
    assert (Hff : f <$> (f <$> l) = f <$> l); [|by rewrite Hff].
    rewrite <- list_fmap_compose. apply list_fmap_ext. intros j n _.
    unfold f. cbn.
    destruct n as [| | | | | |o]; try done.
    destruct (id_is id o) eqn:H0; [|by rewrite H0].
    destruct (id_is id (spread o {[ "read" := VBool true ]})); [|done].
    by rewrite spread_twice.
Qed.

Lemma markNotificationRead_marks_witness :
  markNotificationRead "n-1"
    (markNotificationRead "n-1"
       (addNotification sample_notification "n-1" VNull initialState))
  = markNotificationRead "n-1"
      (addNotification sample_notification "n-1" VNull initialState).
Proof.
  set (s := addNotification sample_notification "n-1" VNull initialState).
  destruct (markNotificationRead_marks "n-1"
              (notifications_of (ui s)) s eq_refl)
    as (_ & _ & _ & H).
  exact H.
Defined.

(** ** Loading flags *)

Lemma loading_of_spread (u l : Obj) :
  loading_of (spread u {[ "loading" := VObj l ]}) = l.
Proof. unfold loading_of. by rewrite spread_singleton_lookup. Qed.

Lemma spread_singletons_commute (a : Obj) (k1 k2 : string) (v1 v2 : Value) :
  k1 ≠ k2 ->
  spread (spread a {[ k1 := v1 ]}) {[ k2 := v2 ]}
  = spread (spread a {[ k2 := v2 ]}) {[ k1 := v1 ]}.
Proof.
  intros Hne. apply map_eq. intros j. rewrite !spread_lookup.
  destruct (decide (j = k1)) as [E1|H1]; destruct (decide (j = k2)) as [E2|H2];
    try congruence; subst;
    rewrite ?lookup_singleton_eq, ?lookup_singleton_ne by done; done.
Qed.

(** X9.  In a state whose [ui.loading] is an object, [setLoading c b] sets
    the flag [c] to [b] and keeps every other flag and every other field of
    [ui]; of two calls for one flag the later decides, and calls for
    different flags can be swapped. *)
Theorem setLoading_one_flag (c : string) (b : bool) (l : Obj) (s : AppState) :
  ui s !! "loading" = Some (VObj l) ->
  let s' := setLoading c b s in
  ui s' !! "loading" = Some (VObj (<[ c := VBool b ]> l))
  /\ (forall k, k ≠ "loading" -> ui s' !! k = ui s !! k)
  /\ (forall b0 : bool, setLoading c b (setLoading c b0 s) = s')
  /\ (forall (c2 : string) (b2 : bool), c2 ≠ c ->
        setLoading c b (setLoading c2 b2 s) = setLoading c2 b2 s').
Proof.
  intros Hl s'. subst s'.
  assert (Hof : loading_of (ui s) = l) by (unfold loading_of; by rewrite Hl).
  split; [|split; [|split]].
  - unfold setLoading. cbn [ui set_ui]. rewrite spread_singleton_lookup, Hof.
    unfold spread. by rewrite <- insert_union_singleton_l.
  - intros k Hk. unfold setLoading. cbn [ui set_ui].
    by apply spread_singleton_other.
  - intros b0. unfold setLoading. rewrite set_ui_twice. cbn [ui set_ui].
    by rewrite loading_of_spread, !spread_singleton_twice.
  - intros c2 b2 Hne. unfold setLoading. rewrite !set_ui_twice. cbn [ui set_ui].
    rewrite !loading_of_spread, !spread_singleton_twice.
    by rewrite (spread_singletons_commute _ c2 c) by done.
Qed.

Lemma setLoading_one_flag_witness :
  setLoading "chat" false (setLoading "chat" true initialState)
  = setLoading "chat" false initialState.
Proof.
  destruct (setLoading_one_flag "chat" false (loading_of initialUIState)
              initialState eq_refl)
    as (_ & _ & Hlast & _).
  apply Hlast.
Defined.

(** ** What is persisted *)

(** X10.  The persisted snapshot holds the user, the authentication flag
    and [ui] with an empty [notifications] array and the initial loading
    flags, every other field of [ui] being the store's.  So nothing the
    chat, snapshot, registry, notification or loading actions write
    reaches it, while the theme does. *)
Theorem partialize_drops_volatile_state (s : AppState) :
  (exists pu : Obj,
     partialize s !! "ui" = Some (VObj pu)
     /\ pu !! "notifications" = Some (VArr [])
     /\ pu !! "loading" = initialUIState !! "loading"
     /\ forall k, k ≠ "notifications" -> k ≠ "loading" -> pu !! k = ui s !! k)
  /\ (forall id m, partialize (addMessage id m s) = partialize s)
  /\ (forall id, partialize (clearConversation id s) = partialize s)
  /\ (forall u b, partialize (setTypingUser u b s) = partialize s)
  /\ (forall u, partialize (updateEvolutionState u s) = partialize s)
  /\ (forall u, partialize (updateReasoningState u s) = partialize s)
  /\ (forall i u, partialize (updateMCPServer i u s) = partialize s)
  /\ (forall c b, partialize (setLoading c b s) = partialize s)
  /\ (forall n i t, partialize (addNotification n i t s) = partialize s)
  /\ (forall i, partialize (removeNotification i s) = partialize s)
  /\ (forall i, partialize (markNotificationRead i s) = partialize s)
  /\ (forall t, exists pu : Obj,
        partialize (setTheme t s) !! "ui" = Some (VObj pu)
        /\ pu !! "theme" = Some (VStr t)).
Proof.
  assert (Hover : forall (u : Obj) (k : string) (v : Value),
            k = "notifications" \/ k = "loading" ->
            spread (spread u {[ k := v ]})
              (list_to_map
                 [("notifications", VArr []);
                  ("loading", default VUndefined (initialUIState !! "loading"))])
            = spread u
                (list_to_map
                   [("notifications", VArr []);
                    ("loading", default VUndefined (initialUIState !! "loading"))])).
  { intros u k v [->| ->]; apply spread_overwritten; eexists; reflexivity. }
  split.
  { eexists. split; [reflexivity|]. split; [by rewrite spread_lookup|].
    split; [by rewrite spread_lookup|].
    intros k H1 H2. rewrite spread_lookup. cbn.
    rewrite !lookup_insert_ne by done. by rewrite lookup_empty. }
  repeat split; try reflexivity.
  - intros c b. unfold partialize, setLoading. cbn [user isAuthenticated ui set_ui].
    rewrite Hover by (by right). reflexivity.
  - intros n i t. unfold partialize, addNotification.
    cbn [user isAuthenticated ui set_ui]. rewrite Hover by (by left). reflexivity.
  - intros i. unfold partialize, removeNotification.
    cbn [user isAuthenticated ui set_ui]. rewrite Hover by (by left). reflexivity.
  - intros i. unfold partialize, markNotificationRead.
    cbn [user isAuthenticated ui set_ui]. rewrite Hover by (by left). reflexivity.
  - intros t. eexists. split; [reflexivity|].
    rewrite spread_lookup. cbn. rewrite !lookup_insert_ne by done.
    rewrite lookup_empty. apply spread_singleton_lookup.
Qed.

End StoreMore.

(* ===================================================================== *)
(** * Further properties of the service *)
(* ===================================================================== *)

Section SessionMore.

Import WebSocketService.

Variable env : Env.

(** ** Two relations every callback keeps *)

Lemma sound_refl (s : Service) : sound s s.
Proof. by intros ?. Qed.

Lemma sound_trans (s1 s2 s3 : Service) : sound s1 s2 -> sound s2 s3 -> sound s1 s3.
Proof. unfold sound. auto. Qed.

(** The backoff is kept whatever the handlers do. *)
Lemma sound_invariant : Invariant env sound.
Proof.
  split; [exact sound_refl|]. split; [exact sound_trans|].
  split; [intros s s' Hs; by apply tame_sound, steady_tame|].
  split; [|split; [|split]].
  - intros event data s.
    destruct (emit_roused env event data s) as (s' & t & E & Ht & _).
    exists s', tt. split; [exact E | by apply tame_sound].
  - intros s [_ Hall]. split; [cbn; unfold maxReconnectAttempts; lia | exact Hall].
  - intros s Hlt [Hle Hall]. split; [exact Hlt|].
    cbn [timers set_timers set_reconnectAttempts]. apply Forall_app. split; [done|].
    constructor; [|constructor]. intros _.
    exists (reconnectAttempts s). split; [exact Hlt|].
    cbn [fst]. by rewrite Nat.sub_succ, Nat.sub_0_r.
  - intros k s [Hle Hall]. split; [done|].
    cbn [timers set_timers]. by apply Forall_delete.
Qed.

(** The handler map is kept when no handler calls into the service. *)
Lemma same_handlers_invariant : passive env -> Invariant env same_handlers.
Proof.
  intros Hp. unfold same_handlers.
  split; [done|]. split; [congruence|].
  split; [by intros s s' (He & _)|].
  split; [|done].
  intros event data s. eexists _, tt.
  split; [apply emit_eq; by left | done].
Qed.

(** ** The callbacks *)

Lemma Keeps_handleReconnect (R : Service -> Service -> Prop) :
  Invariant env R -> Keeps R (handleReconnect env).
Proof.
  intros (Hrefl & Htrans & Hst & Hemit & Hreset & Hrearm & Hdrop) s.
  destruct (decide (reconnectAttempts s < maxReconnectAttempts)) as [Hlt|Hge].
  - eexists _, tt. split; [by apply handleReconnect_below | by apply Hrearm].
  - unfold handleReconnect, bind at 1, get. rewrite decide_True by lia.
    refine (Keeps_bind R _ _ Htrans _ _ s).
    + eapply Keeps_weaken; [exact Hst | apply Keeps_console].
    + intros _. apply Hemit.
Qed.

Lemma Keeps_onclose (R : Service -> Service -> Prop) (code : nat) (reason : string) :
  Invariant env R -> Keeps R (onclose env code reason).
Proof.
  intros HR. pose proof HR as (Hrefl & Htrans & Hst & Hemit & _).
  unfold onclose. apply Keeps_bind; [exact Htrans| |].
  { apply Keeps_modify. intros s0. apply Hst. by apply steady_fields. }
  intros _. apply Keeps_bind; [exact Htrans|apply Hemit|].
  intros _. destruct (decide (code ≠ 1000)).
  - by apply Keeps_handleReconnect.
  - by apply Keeps_ret.
Qed.

Lemma Keeps_onopen (R : Service -> Service -> Prop) (p : nat) :
  Invariant env R -> Keeps R (onopen env p).
Proof.
  intros (Hrefl & Htrans & Hst & Hemit & Hreset & _).
  unfold onopen. apply Keeps_bind; [exact Htrans| |].
  { apply Keeps_modify. intros s0. apply Hst. by apply steady_fields. }
  intros _. apply Keeps_bind; [exact Htrans| |].
  { apply Keeps_modify. exact Hreset. }
  intros _. apply Keeps_bind; [exact Htrans|apply Hemit|].
  intros _. apply Keeps_bind; [exact Htrans| |].
  { eapply Keeps_weaken; [exact Hst|apply Keeps_sendMessage]. }
  intros _. eapply Keeps_weaken; [exact Hst|apply Keeps_settle].
Qed.

Lemma Keeps_handleMessage (R : Service -> Service -> Prop)
    (type : option string) (data : Value) :
  Invariant env R -> Keeps R (handleMessage env type data).
Proof.
  intros (Hrefl & Htrans & Hst & Hemit & _).
  assert (Hlog : forall lv text args, Keeps R (console lv text args)).
  { intros lv text args. eapply Keeps_weaken; [exact Hst|apply Keeps_console]. }
  unfold handleMessage. destruct type as [t|]; [|apply Hlog].
  destruct (decide (t = "pong")); [by apply Keeps_ret|].
  destruct (decide (t ∈ forwarded)); [apply Hemit|].
  destruct (decide (t = "error")); [|apply Hlog].
  apply Keeps_bind; [exact Htrans|apply Hlog|].
  intros _. apply Hemit.
Qed.

Lemma Keeps_onmessage (R : Service -> Service -> Prop) (parsed : option Value) :
  Invariant env R -> Keeps R (onmessage env parsed).
Proof.
  intros HR. pose proof HR as (Hrefl & Htrans & Hst & _).
  assert (Hlog : forall lv text args, Keeps R (console lv text args)).
  { intros lv text args. eapply Keeps_weaken; [exact Hst|apply Keeps_console]. }
  unfold onmessage. destruct parsed as [[| | | | | |o]|];
    try apply Hlog; by apply Keeps_handleMessage.
Qed.

(** ** Reactions *)

Lemma backoff_ok_handlers (x : gmap string (list HandlerRef)) (s : Service) :
  backoff_ok s -> backoff_ok (set_eventHandlers x s).
Proof. by intros [? ?]. Qed.

Lemma backoff_ok_disconnect (s : Service) : backoff_ok s -> backoff_ok (disconnect s).
Proof.
  intros [Hle Hall].
  destruct (disconnect_frame s) as (_ & _ & Htm & _ & _ & _ & Hra & _).
  split; [by rewrite Hra | by rewrite Htm].
Qed.

Lemma backoff_ok_unsubscribe (event : string) (h : HandlerRef) (s : Service) :
  backoff_ok s -> backoff_ok (unsubscribe event h s).
Proof.
  intros Hb. unfold unsubscribe.
  destruct (indexOf h (or_empty (eventHandlers s !! event))); [|done].
  by apply backoff_ok_handlers.
Qed.

(** A reaction to an event other than a call of [on], [off], an
    unsubscribe function or [disconnect] completes and keeps every
    relation the callbacks keep. *)
Lemma react_external (R : Service -> Service -> Prop) (e : Event)
    (s s' : Service) (r : Result unit) :
  Invariant env R -> external e = true ->
  react env e s = Some (s', r) -> r = Ok tt /\ R s s'.
Proof.
  intros HR Hext Hre.
  pose proof HR as (Hrefl & Htrans & Hst & Hemit & Hreset & Hrearm & Hdrop).
  destruct e as [u| |event h|event h|event h|it|i|i code reason|i|i parsed|k];
    cbn [react external] in Hre, Hext; try discriminate Hext.
  - (* connect *)
    injection Hre as Hre.
    assert (Hk : Keeps steady (_ <- connect env u ;; ret tt)).
    { apply Keeps_bind; [apply steady_trans|apply Keeps_connect|].
      intros _. apply Keeps_ret, steady_refl. }
    destruct (Hk s) as (s1 & [] & E & Hs1). rewrite E in Hre.
    injection Hre as <- <-. split; [done | by apply Hst].
  - (* a sender *)
    injection Hre as Hre.
    destruct (Keeps_send_intent env it s) as (s1 & [] & E & Hs1).
    rewrite E in Hre. injection Hre as <- <-. split; [done | by apply Hst].
  - (* open *)
    destruct (sockets s !! i) as [sk|]; [|done]. cbn [mbind option_bind] in Hre.
    destruct (decide (readyState sk = CONNECTING)); [|done].
    injection Hre as Hre.
    destruct (Keeps_onopen R (sock_promise sk) HR (set_readyState i OPEN s))
      as (s1 & [] & E & Hs1).
    rewrite E in Hre. injection Hre as <- <-. split; [done|].
    eapply Htrans; [apply Hst, set_readyState_steady | exact Hs1].
  - (* close *)
    destruct (sockets s !! i) as [sk|]; [|done]. cbn [mbind option_bind] in Hre.
    destruct (decide (readyState sk = CLOSED)); [done|].
    injection Hre as Hre.
    destruct (Keeps_onclose R code reason HR (set_readyState i CLOSED s))
      as (s1 & [] & E & Hs1).
    rewrite E in Hre. injection Hre as <- <-. split; [done|].
    eapply Htrans; [apply Hst, set_readyState_steady | exact Hs1].
  - (* failure *)
    destruct (sockets s !! i) as [sk|]; [|done]. cbn [mbind option_bind] in Hre.
    destruct (decide (readyState sk = CLOSED)); [done|].
    injection Hre as Hre.
    assert (Hk : Keeps R (onerror (sock_promise sk) ;;; onclose env 1006 "")).
    { apply Keeps_bind; [exact Htrans| |].
      - eapply Keeps_weaken; [exact Hst|apply Keeps_onerror].
      - intros _. by apply Keeps_onclose. }
    destruct (Hk (set_readyState i CLOSED s)) as (s1 & [] & E & Hs1).
    rewrite E in Hre. injection Hre as <- <-. split; [done|].
    eapply Htrans; [apply Hst, set_readyState_steady | exact Hs1].
  - (* message *)
    destruct (sockets s !! i) as [sk|]; [|done]. cbn [mbind option_bind] in Hre.
    destruct (decide (readyState sk = OPEN)); [|done].
    injection Hre as Hre.
    destruct (Keeps_onmessage R parsed HR s) as (s1 & [] & E & Hs1).
    rewrite E in Hre. by injection Hre as <- <-.
  - (* timer *)
    destruct (timers s !! k) as [t|]; [|done]. cbn [mbind option_bind] in Hre.
    injection Hre as Hre.
    destruct (Keeps_run_callback env t.2 (set_timers (delete k (timers s)) s))
      as (s1 & [] & E & Hs1).
    rewrite E in Hre. injection Hre as <- <-. split; [done|].
    eapply Htrans; [apply Hdrop | by apply Hst].
Qed.

(** Every reaction completes normally and keeps the backoff, whatever
    the handlers do. *)
Lemma react_sound (e : Event) (s s' : Service) (r : Result unit) :
  react env e s = Some (s', r) -> r = Ok tt /\ sound s s'.
Proof.
  intros Hre. destruct (external e) eqn:Hext.
  { by apply (react_external sound e s s' r sound_invariant). }
  destruct e as [u| |event h|event h|event h|it|i|i code reason|i|i parsed|k];
    try discriminate Hext; cbn [react] in Hre; injection Hre as <- <-;
    (split; [done|]).
  - exact (backoff_ok_disconnect s).
  - exact (backoff_ok_handlers _ s).
  - exact (backoff_ok_unsubscribe event h s).
  - destruct h; [exact (backoff_ok_unsubscribe event _ s) | exact (backoff_ok_handlers _ s)].
Qed.

Lemma run_sound (es : list Event) (s s' : Service) :
  run env es s = Some s' -> sound s s'.
Proof.
  revert s. induction es as [|e es IH]; intros s Hrun; cbn in Hrun.
  - injection Hrun as <-. apply sound_refl.
  - destruct (react env e s) as [[s1 r]|] eqn:Hre; [|done].
    destruct (react_sound e s s1 r Hre) as [_ Hb].
    eapply sound_trans; [exact Hb | by apply IH].
Qed.

Lemma run_same_handlers (es : list Event) (s s' : Service) :
  passive env -> forallb external es = true ->
  run env es s = Some s' -> eventHandlers s' = eventHandlers s.
Proof.
  intros Hp. revert s. induction es as [|e es IH]; intros s Hext Hrun; cbn in Hrun.
  - by injection Hrun as <-.
  - destruct (react env e s) as [[s1 r]|] eqn:Hre; [|done].
    cbn in Hext. apply andb_true_iff in Hext as [H1 H2].
    destruct (react_external same_handlers e s s1 r (same_handlers_invariant Hp) H1 Hre)
      as [_ He].
    rewrite (IH s1 H2 Hrun). exact He.
Qed.

Lemma backoff_ok_initial : backoff_ok initial.
Proof. split; [cbn; unfold maxReconnectAttempts; lia | constructor]. Qed.

(** X11.  In every state the service reaches from its creation, whatever
    is called, whatever the browser delivers and whatever the handlers
    do, the attempt counter is at most 5 and every pending reconnection
    timer has a delay of 1000, 2000, 4000, 8000 or 16000 ms. *)
Theorem backoff_invariant (es : list Event) (s : Service) :
  run env es initial = Some s ->
  reconnectAttempts s <= 5
  /\ forall d, d ∈ reconnect_delays s -> d ∈ [1000; 2000; 4000; 8000; 16000].
Proof.
  intros Hrun. pose proof (run_sound es initial s Hrun) as Hb.
  destruct (Hb backoff_ok_initial) as [Hle Hall]. split; [exact Hle|].
  intros d Hd. unfold reconnect_delays in Hd.
  apply list_elem_of_bind in Hd as ([d' cb] & Hin & Ht).
  rewrite Forall_forall in Hall. specialize (Hall _ Ht). cbn in Hin, Hall.
  destruct cb; try by apply elem_of_nil in Hin.
  apply list_elem_of_singleton in Hin as ->.
  destruct (Hall eq_refl) as (k & Hk & ->).
  unfold maxReconnectAttempts in Hk. unfold reconnectDelay.
  rewrite list_elem_of_In. cbn [In].
  destruct k as [|[|[|[|[|k]]]]]; [| | | | |lia].
  - left. reflexivity.
  - right. left. reflexivity.
  - do 2 right. left. reflexivity.
  - do 3 right. left. reflexivity.
  - do 4 right. left. reflexivity.
Qed.

(** X12.  When no handler calls into the service, connecting, sending,
    socket events and timers never touch the subscriptions: after any run
    of such events every event has the handlers it had, in the same
    order.  Handlers registered before a connection is lost are still
    registered after the reconnection. *)
Theorem subscriptions_survive (es : list Event) (s s' : Service) :
  passive env ->
  forallb external es = true ->
  run env es s = Some s' ->
  eventHandlers s' = eventHandlers s
  /\ forall event, registered event s' = registered event s.
Proof.
  intros Hp Hext Hrun. pose proof (run_same_handlers es s s' Hp Hext Hrun) as He.
  split; [exact He|].
  intros event. unfold registered. by rewrite He.
Qed.

(** X13.  No call of [connect], [disconnect], [on], [off], an unsubscribe
    function or a sender, no socket callback and no timer callback
    throws: each of them runs to its end, whatever the handlers do, the
    calls they make into the service included.  (A frame's payload is a
    JSON value here, which [JSON.stringify] accepts.  Promises are
    another matter: see [reconnect_promise_is_rejected] below.) *)
Theorem reactions_never_throw (e : Event) (s s' : Service) (r : Result unit) :
  react env e s = Some (s', r) -> r = Ok tt.
Proof. intros Hre. by destruct (react_sound e s s' r Hre) as [-> _]. Qed.

End SessionMore.

Section SessionMoreExamples.

Import WebSocketService.

(** After a lost connection. *)
Lemma backoff_invariant_witness :
  reconnectAttempts lost <= 5
  /\ forall d, d ∈ reconnect_delays lost -> d ∈ [1000; 2000; 4000; 8000; 16000].
Proof.
  apply (backoff_invariant quiet_env
           [CallConnect "/"; SockOpen 0; SockClose 0 1001 ""]).
  vm_compute. reflexivity.
Defined.

(** A handler registered before the connection is lost is still there
    after the reconnection. *)
Lemma subscriptions_survive_witness :
  exists s',
    run quiet_env [SockClose 0 1001 ""; TimerFire 0; SockOpen 1]
      (on "chat_response" 7 opened) = Some s'
    /\ registered "chat_response" s' = [7].
Proof.
  destruct (run quiet_env [SockClose 0 1001 ""; TimerFire 0; SockOpen 1]
              (on "chat_response" 7 opened)) as [s'|] eqn:Hrun.
  - exists s'. split; [reflexivity|].
    destruct (subscriptions_survive quiet_env
                [SockClose 0 1001 ""; TimerFire 0; SockOpen 1] _ _
                (fun _ _ => eq_refl) eq_refl Hrun)
      as [_ H].
    rewrite H. reflexivity.
  - vm_compute in Hrun. discriminate Hrun.
Defined.

(** The handler that unsubscribes itself and throws is called when the
    socket opens. *)
Lemma reactions_never_throw_witness :
  exists s',
    react oneshot_faulty_env (SockOpen 0)
      (on "connection_status" 1 (after oneshot_faulty_env [CallConnect "/"]))
    = Some (s', Ok tt).
Proof.
  destruct (react oneshot_faulty_env (SockOpen 0)
              (on "connection_status" 1 (after oneshot_faulty_env [CallConnect "/"])))
    as [[s' r]|] eqn:Hre.
  - exists s'. by rewrite (reactions_never_throw oneshot_faulty_env _ _ _ _ Hre).
  - vm_compute in Hre. discriminate Hre.
Defined.

(** The promise of the [connect] call a reconnection timer makes is held
    by nobody.  When that attempt fails too, the timer of [onerror]
    rejects it: a rejection without a handler, which no callback of the
    service throws and no caller can catch. *)
Example reconnect_promise_is_rejected :
  promises
    <$> run quiet_env
          [ CallConnect "/"; SockFail 0; TimerFire 1; SockFail 1;
            TimerFire 0; TimerFire 0 ]
          initial
  = Some [ Rejected "Backend not available - running in offline mode";
           Rejected "Backend not available - running in offline mode" ].
Proof. vm_compute. reflexivity. Qed.

End SessionMoreExamples.

Section SessionSending.

Import WebSocketService.

Variable env : Env.

(** ** Sending *)

(** The payload of each sender. *)
Lemma send_intent_payload (i : Intent) :
  exists o : Obj,
    send_intent env i = sendMessage (intent_type i) (VObj o)
    /\ o !! "timestamp" = Some (VStr (now env)).
Proof.
  destruct i; eexists; (split; [reflexivity|]);
    try apply spread_singleton_lookup; reflexivity.
Qed.

(** X14.  Each public sender completes normally and writes nothing but the
    trace.  When the service is connected it hands exactly one frame to
    the current socket, with the sender's type literal and a payload whose
    [timestamp] is the clock's even if the caller's configuration has a
    [timestamp] of its own; when it is not connected it sends nothing and
    logs one warning. *)
Theorem senders_send_at_most_one_frame (i : Intent) (s : Service) :
  exists t,
    send_intent env i s = (set_trace (trace s ++ t) s, Ok tt)
    /\ (isConnected s = true ->
        exists (sock : nat) (o : Obj),
          ws s = Some sock
          /\ t = [Sent sock (intent_type i) (VObj o)]
          /\ o !! "timestamp" = Some (VStr (now env)))
    /\ (isConnected s = false ->
        t = [Console WARN
               ("Cannot send message '" ++ intent_type i
                  ++ "' - WebSocket not connected") []]).
Proof.
  destruct (send_intent_payload i) as (o & -> & Hts).
  destruct (isConnected s) eqn:Hc.
  - destruct (isConnected_ws s Hc) as (sock & Hws & _).
    eexists. split; [by apply sendMessage_connected|].
    split; [|done]. intros _. by exists sock, o.
  - eexists. split; [by apply sendMessage_offline|]. done.
Qed.

(** ** A clean close *)

(** X15.  A close with code 1000 schedules nothing.  Whatever the
    handlers do, [onclose] completes, publishes [connection_status] with
    [connected = false] and the reason and nothing else, leaves the
    attempt counter as it is and sets no reconnection timer.  When no
    handler calls into the service it marks the attempt as over, sends
    nothing, and leaves the timers and everything else but the trace as
    they are. *)
Theorem clean_close_schedules_nothing (reason : string) (s : Service) :
  exists s' t,
    onclose env 1000 reason s = (s', Ok tt)
    /\ trace s' = trace s ++ t
    /\ reconnectAttempts s' = reconnectAttempts s
    /\ reconnect_delays s' = reconnect_delays s
    /\ emitted_of t
       = [ ("connection_status",
            VObj (<[ "connected" := VBool false ]> {[ "reason" := VStr reason ]})) ]
    /\ (passive env ->
        s' = set_trace (trace s ++ t) (set_isConnecting false s)
        /\ timers s' = timers s
        /\ frames_of t = []).
Proof.
  unfold onclose, bind at 1, modify. unfold bind at 1.
  destruct (emit_roused env "connection_status"
              (VObj (<[ "connected" := VBool false ]> {[ "reason" := VStr reason ]}))
              (set_isConnecting false s))
    as (s1 & t1 & E1 & Htame & Htr & Hem).
  rewrite E1. rewrite decide_False by (intros H; by apply H).
  exists s1, t1. split; [reflexivity|]. split; [exact Htr|].
  split; [by destruct Htame|]. split; [exact (tame_delays _ _ Htame)|].
  split; [exact Hem|].
  intros Hp. rewrite emit_eq in E1 by (by left). injection E1 as Hs1.
  rewrite <- Hs1 in Htr. cbn [trace set_trace set_isConnecting] in Htr.
  apply app_inv_head in Htr. rewrite <- Hs1, <- Htr.
  split; [reflexivity|]. split; [reflexivity|]. apply frames_of_emit_trace.
Qed.

(** ** The socket opens *)

(** The opening of the socket [ws] names when no handler calls into the
    service. *)
Lemma socket_open_passive (i : nat) (sk : Socket) (s : Service) :
  passive env ->
  ws s = Some i -> sockets s !! i = Some sk -> readyState sk = CONNECTING ->
  exists s' t,
    react env (SockOpen i) s = Some (s', Ok tt)
    /\ isConnected s' = true
    /\ reconnectAttempts s' = 0
    /\ isConnecting s' = false
    /\ timers s' = timers s
    /\ trace s' = trace s ++ t
    /\ emitted_of t = [("connection_status", VObj {[ "connected" := VBool true ]})]
    /\ frames_of t = [(i, "ping", VObj {[ "timestamp" := VStr (now env) ]})]
    /\ (promises s !! sock_promise sk = Some Pending ->
        promises s' !! sock_promise sk = Some Fulfilled).
Proof.
  intros Hpassive Hws Hsk Hst.
  pose proof (lookup_lt_Some _ _ _ Hsk) as Hlt.
  cbn [react]. rewrite Hsk. cbn [mbind option_bind].
  rewrite decide_True by done.
  unfold set_readyState. rewrite Hsk.
  set (s0 := set_sockets _ s).
  assert (Hc0 : forall x, ws x = Some i -> sockets x = sockets s0 ->
                          isConnected x = true).
  { intros x Hx Hsx. unfold isConnected, ws_readyState. rewrite Hx, Hsx.
    cbn. rewrite list_lookup_insert_eq by done. cbn.
    by apply bool_decide_eq_true. }
  unfold onopen, bind at 1, modify. unfold bind at 1, modify.
  unfold bind at 1. rewrite emit_eq by (by left). unfold bind at 1.
  rewrite (sendMessage_connected "ping" _ i) by (by apply Hc0 || done).
  unfold resolve, settle, modify. cbn [promises set_trace set_reconnectAttempts
    set_isConnecting set_sockets s0].
  destruct (promises s !! sock_promise sk) as [[| |]|] eqn:Hp.
  - eexists _, _. split; [reflexivity|].
    split; [by apply Hc0|]. split; [reflexivity|]. split; [reflexivity|].
    split; [reflexivity|]. split.
    { cbn. rewrite <- app_assoc. reflexivity. }
    split; [|split].
    + rewrite emitted_of_app, emitted_of_emit_trace. reflexivity.
    + rewrite frames_of_app, frames_of_emit_trace. reflexivity.
    + intros _. cbn. apply list_lookup_insert_eq. by eapply lookup_lt_Some.
  - eexists _, _. split; [reflexivity|].
    split; [by apply Hc0|]. split; [reflexivity|]. split; [reflexivity|].
    split; [reflexivity|]. split.
    { cbn. rewrite <- app_assoc. reflexivity. }
    split; [|split]; [|..|done].
    + rewrite emitted_of_app, emitted_of_emit_trace. reflexivity.
    + rewrite frames_of_app, frames_of_emit_trace. reflexivity.
  - eexists _, _. split; [reflexivity|].
    split; [by apply Hc0|]. split; [reflexivity|]. split; [reflexivity|].
    split; [reflexivity|]. split.
    { cbn. rewrite <- app_assoc. reflexivity. }
    split; [|split]; [|..|done].
    + rewrite emitted_of_app, emitted_of_emit_trace. reflexivity.
    + rewrite frames_of_app, frames_of_emit_trace. reflexivity.
  - eexists _, _. split; [reflexivity|].
    split; [by apply Hc0|]. split; [reflexivity|]. split; [reflexivity|].
    split; [reflexivity|]. split.
    { cbn. rewrite <- app_assoc. reflexivity. }
    split; [|split]; [|..|done].
    + rewrite emitted_of_app, emitted_of_emit_trace. reflexivity.
    + rewrite frames_of_app, frames_of_emit_trace. reflexivity.
Qed.

(** The opening of a connecting socket, whatever the handlers do. *)
Lemma socket_open_roused (i : nat) (sk : Socket) (s : Service) :
  sockets s !! i = Some sk -> readyState sk = CONNECTING ->
  exists s' t,
    react env (SockOpen i) s = Some (s', Ok tt)
    /\ reconnectAttempts s' = 0
    /\ reconnect_delays s' = reconnect_delays s
    /\ trace s' = trace s ++ t
    /\ emitted_of t = [("connection_status", VObj {[ "connected" := VBool true ]})].
Proof.
  intros Hsk Hst. cbn [react]. rewrite Hsk. cbn [mbind option_bind].
  rewrite decide_True by done.
  unfold set_readyState. rewrite Hsk.
  set (s0 := set_sockets _ s).
  unfold onopen, bind at 1, modify. unfold bind at 1, modify. unfold bind at 1.
  destruct (emit_roused env "connection_status" (VObj {[ "connected" := VBool true ]})
              (set_reconnectAttempts 0 (set_isConnecting false s0)))
    as (s1 & t1 & E1 & Htame1 & Htr1 & Hem1).
  rewrite E1. unfold bind at 1.
  destruct (sendMessage_meddled "ping" (VObj {[ "timestamp" := VStr (now env) ]}) s1)
    as (s2 & [] & E2 & Htame2 & t2 & Htr2 & Hem2 & _).
  rewrite E2. unfold resolve.
  destruct (settle_eq (sock_promise sk) Fulfilled s2) as [ps ->].
  exists (set_promises ps s2), (t1 ++ t2). split; [reflexivity|].
  cbn [reconnectAttempts trace set_promises].
  pose proof (tame_delays _ _ Htame1) as Hd1.
  pose proof (tame_delays _ _ Htame2) as Hd2.
  destruct Htame1 as [Hra1 _]. destruct Htame2 as [Hra2 _].
  split; [by rewrite Hra2, Hra1|]. split; [|split].
  - change (reconnect_delays (set_promises ps s2)) with (reconnect_delays s2).
    by rewrite Hd2, Hd1.
  - by rewrite Htr2, Htr1, <- app_assoc.
  - by rewrite emitted_of_app, Hem1, Hem2.
Qed.

(** X16.  When the socket [ws] names, still connecting, opens: whatever
    the handlers do, the callback completes, the attempt counter is 0, no
    reconnection timer is set, and [connection_status] with
    [connected = true] is published and nothing else.  When no handler
    calls into the service, the service is connected and no attempt is
    marked in flight; exactly one frame, a [ping], is sent on that
    socket; the timers are untouched; and the promise of the [connect]
    call that made the socket, if still pending, is fulfilled. *)
Theorem socket_open_connects (i : nat) (sk : Socket) (s : Service) :
  ws s = Some i -> sockets s !! i = Some sk -> readyState sk = CONNECTING ->
  exists s' t,
    react env (SockOpen i) s = Some (s', Ok tt)
    /\ reconnectAttempts s' = 0
    /\ reconnect_delays s' = reconnect_delays s
    /\ trace s' = trace s ++ t
    /\ emitted_of t = [("connection_status", VObj {[ "connected" := VBool true ]})]
    /\ (passive env ->
        isConnected s' = true
        /\ isConnecting s' = false
        /\ timers s' = timers s
        /\ frames_of t = [(i, "ping", VObj {[ "timestamp" := VStr (now env) ]})]
        /\ (promises s !! sock_promise sk = Some Pending ->
            promises s' !! sock_promise sk = Some Fulfilled)).
Proof.
  intros Hws Hsk Hst.
  destruct (socket_open_roused i sk s Hsk Hst) as (s' & t & E & Hra & Hd & Htr & Hem).
  exists s', t. split; [exact E|]. split; [exact Hra|]. split; [exact Hd|].
  split; [exact Htr|]. split; [exact Hem|].
  intros Hp.
  destruct (socket_open_passive i sk s Hp Hws Hsk Hst)
    as (s'' & t'' & E'' & Hc & _ & Hic & Htm & Htr'' & _ & Hf & Hpr).
  rewrite E in E''. injection E'' as <-.
  rewrite Htr in Htr''. apply app_inv_head in Htr''. subst t''. done.
Qed.

End SessionSending.

Section SessionConnecting.

Import WebSocketService.

Variable env : Env.

(** ** [connect] while the flag [isConnecting] is set *)

Lemma isConnected_frame (s s' : Service) :
  ws s' = ws s -> sockets s' = sockets s -> isConnected s' = isConnected s.
Proof. intros Hw Hs. unfold isConnected, ws_readyState. by rewrite Hw, Hs. Qed.


(** ** [connect] when the constructor throws *)

(** X18.  When the service is not connected, the flag [isConnecting] is
    clear and [new WebSocket] throws for the resolved URL, [connect]
    returns a rejected promise, creates no socket, leaves [ws] and the
    timers as they are and leaves the flag clear; the URL it tried is
    stored. *)
Theorem connect_refused_url (u : string) (s : Service) :
  isConnected s = false -> isConnecting s = false ->
  accepts env (resolve_url env u) = false ->
  exists s',
    connect env u s = (s', Ok (length (promises s)))
    /\ promises s' = promises s ++ [Rejected "SyntaxError"]
    /\ sockets s' = sockets s
    /\ ws s' = ws s
    /\ isConnecting s' = false
    /\ timers s' = timers s
    /\ url s' = resolve_url env u.
Proof.
  intros Hc Hic Hacc.
  unfold connect, bind at 1, new_promise. unfold bind at 1, get.
  rewrite isConnected_set_promises, Hc. cbn [isConnecting set_promises].
  rewrite Hic. unfold bind, reject, settle, modify, ret. rewrite Hacc.
  cbn [promises set_promises set_isConnecting set_url].
  rewrite lookup_app_r by done. rewrite Nat.sub_diag. cbn [lookup list_lookup].
  eexists. split; [reflexivity|]. cbn.
  split; [|done]. rewrite insert_app_r_alt by done.
  by rewrite Nat.sub_diag.
Qed.

(** ** The URL *)



(** ** Inbound messages *)

(** What arrives when no handler calls into the service: [onmessage]
    completes normally, sends nothing and writes nothing but
    the trace.  A message whose [type] is one of the
    fourteen forwarded types is published under that type with its [data]
    and reaches exactly the handlers of that type; [error] is logged and
    published as [connection_error]; [pong] leaves no trace at all; any
    other message, a message without a string [type], and text that does
    not parse publish nothing and call no handler. *)
Lemma onmessage_passive (parsed : option Value) (s : Service) :
  passive env ->
  exists t,
    onmessage env parsed s = (set_trace (trace s ++ t) s, Ok tt)
    /\ frames_of t = []
    /\ match parsed with
       | Some (VObj o) =>
           match o !! "type" with
           | Some (VStr ty) =>
               if decide (ty = "pong") then t = []
               else if decide (ty ∈ forwarded) then
                 t = emit_trace env ty (default VUndefined (o !! "data")) s
                 /\ calls_of t = registered ty s
               else if decide (ty = "error") then
                 emitted_of t
                 = [("connection_error", default VUndefined (o !! "data"))]
                 /\ calls_of t = registered "connection_error" s
               else emitted_of t = [] /\ calls_of t = []
           | _ => emitted_of t = [] /\ calls_of t = []
           end
       | _ => emitted_of t = [] /\ calls_of t = []
       end.
Proof.
  intros Hp.
  assert (Hlog : forall lv text args,
            console lv text args s
            = (set_trace (trace s ++ [Console lv text args]) s, Ok tt))
    by reflexivity.
  destruct parsed as [[| | | | | |o]|]; cbn [onmessage handleMessage];
    try (eexists; split; [apply Hlog|]; done).
  destruct (o !! "type") as [[| | | |ty| |]|];
    try (eexists; split; [apply Hlog|]; done).
  cbn [handleMessage].
  destruct (decide (ty = "pong")).
  { exists []. unfold ret. by rewrite app_nil_r, set_trace_id. }
  destruct (decide (ty ∈ forwarded)).
  { eexists. split; [apply emit_eq; by left|]. split; [apply frames_of_emit_trace|].
    split; [done|]. apply calls_of_emit_trace. }
  destruct (decide (ty = "error")).
  - unfold bind, console, observe, modify. rewrite emit_eq by (by left).
    rewrite set_trace_twice. cbn [trace set_trace]. rewrite <- app_assoc.
    eexists. split; [reflexivity|]. split; [|split].
    + etransitivity; [exact (frames_of_app [Console ERROR _ _] _)|].
      exact (frames_of_emit_trace env _ _ _).
    + etransitivity; [exact (emitted_of_app [Console ERROR _ _] _)|].
      exact (emitted_of_emit_trace env _ _ _).
    + etransitivity; [exact (calls_of_app [Console ERROR _ _] _)|].
      exact (calls_of_emit_trace env _ _ _).
  - eexists. split; [apply Hlog|]. done.
Qed.

(** What [onmessage] publishes, whatever the handlers do. *)
Lemma onmessage_roused (parsed : option Value) (s : Service) :
  exists s' t,
    onmessage env parsed s = (s', Ok tt)
    /\ trace s' = trace s ++ t
    /\ emitted_of t
       = match parsed with
         | Some (VObj o) =>
             match o !! "type" with
             | Some (VStr ty) =>
                 if decide (ty = "pong") then []
                 else if decide (ty ∈ forwarded)
                      then [(ty, default VUndefined (o !! "data"))]
                      else if decide (ty = "error")
                           then [("connection_error", default VUndefined (o !! "data"))]
                           else []
             | _ => []
             end
         | _ => []
         end.
Proof.
  assert (Hlog : forall lv text args,
            exists s' t, console lv text args s = (s', Ok tt)
              /\ trace s' = trace s ++ t /\ emitted_of t = []).
  { intros lv text args.
    by exists (set_trace (trace s ++ [Console lv text args]) s), [Console lv text args]. }
  destruct parsed as [[| | | | | |o]|]; cbn [onmessage handleMessage];
    try apply Hlog.
  destruct (o !! "type") as [[| | | |ty| |]|]; try apply Hlog.
  cbn [handleMessage].
  destruct (decide (ty = "pong")).
  { exists s, []. unfold ret. by rewrite app_nil_r. }
  destruct (decide (ty ∈ forwarded)).
  { destruct (emit_roused env ty (default VUndefined (o !! "data")) s)
      as (s' & t & E & _ & Htr & Hem).
    by exists s', t. }
  destruct (decide (ty = "error")); [|apply Hlog].
  unfold bind, console, observe, modify.
  match goal with |- context [emit env ?e ?d ?st] =>
    destruct (emit_roused env e d st) as (s' & t & E & _ & Htr & Hem) end.
  rewrite E.
  exists s', (Console ERROR "Server error:" [default VUndefined (o !! "data")] :: t).
  split; [reflexivity|]. split.
  - rewrite Htr. cbn [trace set_trace]. by rewrite <- app_assoc.
  - exact Hem.
Qed.

(** X20.  Whatever arrives and whatever the handlers do, [onmessage]
    completes normally.  A message whose [type] is one of the fourteen
    forwarded types is published under that type with its [data];
    [error] is published as [connection_error]; nothing else is
    published.  When no handler calls into the service, [onmessage]
    sends nothing and writes nothing but the trace; a forwarded message
    reaches exactly the handlers of its type and [error] those of
    [connection_error]; [pong] leaves no trace at all; any other
    message, a message without a string [type], and text that does not
    parse call no handler. *)
Theorem onmessage_routes (parsed : option Value) (s : Service) :
  exists s' t,
    onmessage env parsed s = (s', Ok tt)
    /\ trace s' = trace s ++ t
    /\ emitted_of t
       = match parsed with
         | Some (VObj o) =>
             match o !! "type" with
             | Some (VStr ty) =>
                 if decide (ty = "pong") then []
                 else if decide (ty ∈ forwarded)
                      then [(ty, default VUndefined (o !! "data"))]
                      else if decide (ty = "error")
                           then [("connection_error", default VUndefined (o !! "data"))]
                           else []
             | _ => []
             end
         | _ => []
         end
    /\ (passive env ->
        s' = set_trace (trace s ++ t) s
        /\ frames_of t = []
        /\ match parsed with
           | Some (VObj o) =>
               match o !! "type" with
               | Some (VStr ty) =>
                   if decide (ty = "pong") then t = []
                   else if decide (ty ∈ forwarded) then
                     t = emit_trace env ty (default VUndefined (o !! "data")) s
                     /\ calls_of t = registered ty s
                   else if decide (ty = "error") then
                     calls_of t = registered "connection_error" s
                   else calls_of t = []
               | _ => calls_of t = []
               end
           | _ => calls_of t = []
           end).
Proof.
  destruct (onmessage_roused parsed s) as (s' & t & E & Htr & Hem).
  exists s', t. split; [exact E|]. split; [exact Htr|]. split; [exact Hem|].
  intros Hp. destruct (onmessage_passive parsed s Hp) as (t' & E' & Hf & Hm).
  rewrite E in E'. injection E' as Hs'.
  assert (t' = t) as ->.
  { rewrite Hs' in Htr. cbn [trace set_trace] in Htr. by apply app_inv_head in Htr. }
  split; [exact Hs'|]. split; [exact Hf|].
  destruct parsed as [[| | | | | |o]|]; try (by destruct Hm).
  destruct (o !! "type") as [[| | | |ty| |]|]; try (by destruct Hm).
  destruct (decide (ty = "pong")); [exact Hm|].
  destruct (decide (ty ∈ forwarded)); [exact Hm|].
  destruct (decide (ty = "error")); by destruct Hm.
Qed.

End SessionConnecting.

Section SessionConnectingExamples.

Import WebSocketService.


Lemma connect_refused_url_witness :
  let picky : Env :=
    {| call := fun _ _ => Returns; reenters := fun _ _ => [];
       VITE_WS_URL := None;
       location_protocol := "http:"; location_host := "localhost:3000";
       accepts := fun _ => false; now := "" |} in
  exists s',
    connect picky "/" initial = (s', Ok 0)
    /\ promises s' = [Rejected "SyntaxError"]
    /\ sockets s' = [].
Proof.
  intros picky.
  destruct (connect_refused_url picky "/" initial eq_refl eq_refl eq_refl)
    as (s' & Hc & Hp & Hs & _).
  exists s'. split; [exact Hc|]. split; [exact Hp | exact Hs].
Defined.


(** A [chat_response] reaches the handler of [chat_response]. *)
Lemma onmessage_routes_witness :
  exists t,
    onmessage quiet_env
      (Some (VObj (<[ "type" := VStr "chat_response" ]> {[ "data" := VStr "hi" ]})))
      (on "chat_response" 7 opened)
    = (set_trace (trace (on "chat_response" 7 opened) ++ t)
         (on "chat_response" 7 opened), Ok tt)
    /\ frames_of t = []
    /\ calls_of t = [7].
Proof.
  destruct (onmessage_routes quiet_env
              (Some (VObj (<[ "type" := VStr "chat_response" ]> {[ "data" := VStr "hi" ]})))
              (on "chat_response" 7 opened))
    as (s' & t & E & _ & _ & Hp).
  destruct (Hp (fun _ _ => eq_refl)) as (Hs' & Hf & Hm).
  exists t. split; [by rewrite E, Hs'|]. split; [exact Hf|].
  vm_compute in Hm. destruct Hm as [_ Hc]. exact Hc.
Defined.

(** The flag [isConnecting] and the sockets can disagree.  After
    [disconnect] and a new [connect], the close event of the old socket
    clears the flag while the new socket is still connecting; a further
    [connect] then creates one more socket, and two sockets of the
    service are connecting at once. *)
Example flag_cleared_by_an_old_socket :
  let es :=
    [ CallConnect "/"; SockOpen 0; CallDisconnect; CallConnect "/";
      SockClose 0 1000 "Client disconnect" ] in
  (isConnecting <$> run quiet_env es initial) = Some false
  /\ (ws_readyState <$> run quiet_env es initial) = Some (Some CONNECTING)
  /\ ((fun s => readyState <$> sockets s) <$> run quiet_env (es ++ [CallConnect "/"]) initial)
     = Some [CLOSED; CONNECTING; CONNECTING].
Proof. repeat split; vm_compute; reflexivity. Qed.

End SessionConnectingExamples.

Section SubscriptionsMore.

Import WebSocketService.

Variable env : Env.

(** ** Subscribing and unsubscribing *)

Lemma set_eventHandlers_twice (x1 x2 : gmap string (list HandlerRef)) (s : Service) :
  set_eventHandlers x2 (set_eventHandlers x1 s) = set_eventHandlers x2 s.
Proof. by destruct s. Qed.

Lemma set_eventHandlers_id (s : Service) : set_eventHandlers (eventHandlers s) s = s.
Proof. by destruct s. Qed.

(** X21.  Subscribing a handler that the event does not have yet and then
    calling the unsubscribe function [on] returned restores the service
    exactly, when the event has an array (as the seventeen event types of
    the constructor do until [disconnect] is called); in any case the
    handlers of every event are as before. *)
Theorem subscribe_unsubscribe_round_trip (event : string) (h : HandlerRef)
    (s : Service) :
  h ∉ registered event s ->
  (forall e, registered e (unsubscribe event h (on event h s)) = registered e s)
  /\ (is_Some (eventHandlers s !! event) -> unsubscribe event h (on event h s) = s).
Proof.
  intros Hnot.
  assert (Hidx : indexOf h (registered event s ++ [h])
                 = Some (length (registered event s)))
    by (by apply indexOf_first).
  assert (Heq : unsubscribe event h (on event h s)
                = set_eventHandlers (<[event := registered event s]> (eventHandlers s)) s).
  { unfold unsubscribe, on. cbn [eventHandlers set_eventHandlers].
    rewrite lookup_insert_eq. cbn [or_empty]. fold (registered event s).
    rewrite Hidx, delete_middle, app_nil_r.
    by rewrite set_eventHandlers_twice, insert_insert_eq. }
  rewrite Heq. split.
  - intros e. destruct (decide (e = event)) as [->|Hne].
    + apply registered_set_this.
    + by apply registered_set_other.
  - intros [l Hl]. unfold registered. rewrite Hl. cbn [or_empty].
    rewrite insert_id by done. apply set_eventHandlers_id.
Qed.

(** ** Silencing *)

(** X22.  After [off(event)] the event has no handler and every other
    event keeps its own; after [disconnect] no event has a handler and the
    service is not connected.  In both cases publishing the event calls
    nobody, and a handler subscribed afterwards is the event's only one. *)
Theorem off_and_disconnect_silence (event : string) (h : HandlerRef)
    (data : Value) (s : Service) :
  (registered event (off event None s) = []
   /\ delete event (eventHandlers (off event None s)) = delete event (eventHandlers s)
   /\ calls_of (trace (emit env event data (off event None s)).1) = calls_of (trace s)
   /\ registered event (on event h (off event None s)) = [h])
  /\ (eventHandlers (disconnect s) = ∅
      /\ isConnected (disconnect s) = false
      /\ calls_of (trace (emit env event data (disconnect s)).1) = calls_of (trace s)
      /\ registered event (on event h (disconnect s)) = [h]).
Proof.
  assert (Hoff : registered event (off event None s) = []).
  { unfold off. apply registered_set_this. }
  destruct (disconnect_frame s) as (Hws & Heh & _ & _ & _ & _ & _ & Htr & _).
  assert (Hdis : registered event (disconnect s) = []).
  { unfold registered. by rewrite Heh, lookup_empty. }
  split; split.
  - exact Hoff.
  - split; [|split].
    + unfold off. cbn [eventHandlers set_eventHandlers]. apply delete_insert_eq.
    + rewrite emit_silent by exact Hoff. cbn [fst trace set_trace].
      rewrite calls_of_app. cbn. by rewrite app_nil_r.
    + unfold on. fold (registered event (off event None s)). rewrite Hoff.
      apply registered_set_this.
  - exact Heh.
  - split; [|split].
    + unfold isConnected, ws_readyState. by rewrite Hws.
    + rewrite emit_silent by exact Hdis. cbn [fst trace set_trace].
      rewrite calls_of_app, Htr. cbn. by rewrite app_nil_r.
    + unfold on. fold (registered event (disconnect s)). rewrite Hdis.
      apply registered_set_this.
Qed.

End SubscriptionsMore.

Section SubscriptionsMoreExamples.

Import WebSocketService.

Lemma subscribe_unsubscribe_round_trip_witness :
  unsubscribe "chat_response" 7 (on "chat_response" 7 opened) = opened.
Proof.
  destruct (subscribe_unsubscribe_round_trip "chat_response" 7 opened) as [_ H].
  - intros Hin. vm_compute in Hin. by apply elem_of_nil in Hin.
  - apply H. vm_compute. eauto.
Defined.

End SubscriptionsMoreExamples.

(* ===================================================================== *)
(** * Properties of the components *)
(* ===================================================================== *)

Section ComponentFacts.

Import WebSocketService.

Variable env : Env.

(** ** The cleanup of [AppLayout] *)

Lemma onclose_clean_eq (reason : string) (s : Service) :
  passive env \/ registered "connection_status" s = [] ->
  onclose env 1000 reason s
  = (set_trace
       (trace s
          ++ emit_trace env "connection_status"
               (VObj (<[ "connected" := VBool false ]> {[ "reason" := VStr reason ]}))
               (set_isConnecting false s))
       (set_isConnecting false s),
     Ok tt).
Proof.
  intros Hcase. unfold onclose, bind at 1, modify. unfold bind at 1.
  rewrite emit_eq by exact Hcase.
  by rewrite decide_False by (intros H; by apply H).
Qed.

(** X23.  When the service is connected, the cleanup disconnects; once the
    browser then reports the close with code 1000, the service is not
    connected, has no socket, and has the timers and the attempt counter it
    had: no reconnection is scheduled.  The [connection_status] of that
    close is published after the handlers were dropped, so it reaches
    nobody. *)
Theorem cleanup_on_open_connection (i : nat) (reason : string) (s : Service) :
  ws s = Some i -> isConnected s = true ->
  exists s' t,
    run env [SockClose i 1000 reason] (AppLayout.cleanup s) = Some s'
    /\ isConnected s' = false
    /\ ws s' = None
    /\ timers s' = timers s
    /\ reconnectAttempts s' = reconnectAttempts s
    /\ trace s' = trace s ++ t
    /\ calls_of t = []
    /\ emitted_of t
       = [ ("connection_status",
            VObj (<[ "connected" := VBool false ]> {[ "reason" := VStr reason ]})) ].
Proof.
  intros Hws Hc. unfold AppLayout.cleanup. rewrite Hc.
  destruct (isConnected_ws s Hc) as (j & Hj & Hopen).
  assert (j = i) as -> by congruence.
  destruct (sockets s !! i) as [sk|] eqn:Hsk; [|done].
  cbn in Hopen. injection Hopen as Hrs.
  pose proof (lookup_lt_Some _ _ _ Hsk) as Hlt.
  assert (Hd : disconnect s
               = set_eventHandlers ∅
                   (set_ws None
                      (set_sockets
                         (<[i := mkSocket (sock_url sk) CLOSING (sock_promise sk)]>
                            (sockets s)) s))).
  { unfold disconnect. rewrite Hws. unfold close_socket. by rewrite Hsk, Hrs. }
  rewrite Hd. cbn [run react sockets set_eventHandlers set_ws set_sockets].
  rewrite list_lookup_insert_eq by done. cbn [mbind option_bind readyState].
  rewrite decide_False by done.
  unfold set_readyState. cbn [sockets set_eventHandlers set_ws set_sockets].
  rewrite list_lookup_insert_eq by done.
  rewrite onclose_clean_eq by (by right).
  eexists _, _. split; [reflexivity|].
  split; [reflexivity|]. split; [reflexivity|]. split; [reflexivity|].
  split; [reflexivity|]. split; [reflexivity|]. split.
  - by rewrite calls_of_emit_trace.
  - apply emitted_of_emit_trace.
Qed.

(** X24.  While the socket [ws] names is still connecting, the cleanup
    does nothing: the attempt goes on, the opening of the socket is
    delivered to the service, and unless a handler calls into the
    service then, the service is connected. *)
Theorem cleanup_before_open_keeps_attempt (i : nat) (sk : Socket) (s : Service) :
  ws s = Some i -> sockets s !! i = Some sk -> readyState sk = CONNECTING ->
  AppLayout.cleanup s = s
  /\ exists s',
       react env (SockOpen i) (AppLayout.cleanup s) = Some (s', Ok tt)
       /\ (passive env -> isConnected s' = true).
Proof.
  intros Hws Hsk Hst.
  assert (Hnc : isConnected s = false).
  { unfold isConnected, ws_readyState. rewrite Hws. cbn. rewrite Hsk. cbn.
    rewrite Hst. by apply bool_decide_eq_false. }
  assert (Hcl : AppLayout.cleanup s = s).
  { unfold AppLayout.cleanup. by rewrite Hnc. }
  rewrite Hcl. split; [done|].
  destruct (socket_open_roused env i sk s Hsk Hst) as (s' & t & E & _).
  exists s'. split; [exact E|]. intros Hp.
  destruct (onopen_frame env (sock_promise sk) (set_readyState i OPEN s))
    as (s'' & Ho & Hws' & Hsk' & _); [by left|].
  assert (s'' = s') as ->.
  { cbn [react] in E. rewrite Hsk in E. cbn [mbind option_bind] in E.
    rewrite decide_True in E by done. rewrite Ho in E. by injection E. }
  unfold isConnected, ws_readyState. rewrite Hws', Hsk'.
    unfold set_readyState. rewrite Hsk. cbn [ws sockets set_sockets].
    rewrite Hws. cbn [mbind option_bind].
    rewrite list_lookup_insert_eq by (by eapply lookup_lt_Some).
    cbn. by apply bool_decide_eq_true.
Qed.

(** ** Sending a chat message *)

Variable trim : string -> string.

(** X25.  [sendMessage] of the chat component does nothing when the
    trimmed input is empty or the component's flag says offline.
    Otherwise it appends one user message with the trimmed text to the
    given conversation of the store and clears the input, and the service
    gets at most one [chat_message] frame for it: exactly one, carrying
    the message with the agent's id, when the service is connected, and
    none, with a warning, when it is not, in which case the message stays
    in the store all the same. *)
Theorem chat_sendMessage_effect (activeConversation newId : string)
    (timestamp : Value) (c : ChatInterface.Chat) (st : Store.AppState)
    (svc : Service) :
  let m := ChatInterface.chatMessage trim c newId timestamp in
  let r := ChatInterface.sendMessage env trim activeConversation newId timestamp
             c st svc in
  (trim (ChatInterface.message c) = "" \/ ChatInterface.isConnected c = false ->
   r = (c, st, svc))
  /\ (trim (ChatInterface.message c) ≠ "" -> ChatInterface.isConnected c = true ->
      exists c' t,
        r = (c', Store.addMessage activeConversation m st,
             set_trace (trace svc ++ t) svc)
        /\ ChatInterface.message c' = ""
        /\ or_empty (Store.conversations
                       (Store.addMessage activeConversation m st) !! activeConversation)
           = or_empty (Store.conversations st !! activeConversation) ++ [m]
        /\ m !! "content" = Some (VStr (trim (ChatInterface.message c)))
        /\ (isConnected svc = true ->
            exists (sock : nat) (o : Obj),
              t = [Sent sock "chat_message" (VObj o)]
              /\ o !! "message"
                 = Some (VObj (spread m
                                 {[ "agentId" := VStr (ChatInterface.activeAgent c) ]})))
        /\ (isConnected svc = false -> frames_of t = [] /\ length (warnings_of t) = 1)).
Proof.
  intros m r. subst m r. unfold ChatInterface.sendMessage. split.
  - intros [Hblank|Hoff].
    + by rewrite decide_True.
    + destruct (decide (trim (ChatInterface.message c) = "")); [done|].
      by rewrite Hoff.
  - intros Hne Hon. rewrite decide_False by done. rewrite Hon. cbn [negb].
    unfold sendChatMessage.
    destruct (isConnected svc) eqn:Hc.
    + destruct (isConnected_ws svc Hc) as (sock & Hws & _).
      rewrite (sendMessage_connected _ _ sock) by done.
      eexists _, _. split; [reflexivity|]. split; [reflexivity|].
      split; [cbn; by rewrite lookup_insert_eq|]. split; [reflexivity|].
      split; [|done]. intros _. eexists sock, _. split; reflexivity.
    + rewrite sendMessage_offline by done.
      eexists _, _. split; [reflexivity|]. split; [reflexivity|].
      split; [cbn; by rewrite lookup_insert_eq|]. split; [reflexivity|].
      split; [done|]. intros _. split; reflexivity.
Qed.

End ComponentFacts.

Section ComponentExamples.

Import WebSocketService.

Lemma cleanup_on_open_connection_witness :
  exists s',
    run quiet_env [SockClose 0 1000 "Client disconnect"] (AppLayout.cleanup opened)
    = Some s'
    /\ isConnected s' = false
    /\ timers s' = [].
Proof.
  destruct (cleanup_on_open_connection quiet_env 0 "Client disconnect" opened
              eq_refl eq_refl)
    as (s' & t & Hrun & Hc & _ & Ht & _).
  exists s'. split; [exact Hrun|]. split; [exact Hc|]. rewrite Ht. reflexivity.
Defined.

Lemma cleanup_before_open_keeps_attempt_witness :
  exists s',
    react quiet_env (SockOpen 0)
      (AppLayout.cleanup (after quiet_env [CallConnect "/"])) = Some (s', Ok tt)
    /\ isConnected s' = true.
Proof.
  destruct (cleanup_before_open_keeps_attempt quiet_env 0
              (mkSocket "ws://localhost:3000/ws" CONNECTING 0)
              (after quiet_env [CallConnect "/"]) eq_refl eq_refl eq_refl)
    as (_ & s' & E & H).
  exists s'. split; [exact E|]. apply H. intros h data. reflexivity.
Defined.

(** A message typed while the component believes it is online and the
    service is not. *)
Lemma chat_sendMessage_effect_witness :
  exists c' svc',
    ChatInterface.sendMessage quiet_env (fun x => x) "default" "msg-1" VNull
      (ChatInterface.mkChat "hi" "reasoning" true false) Store.initialState initial
    = (c', Store.addMessage "default"
             (ChatInterface.chatMessage (fun x => x)
                (ChatInterface.mkChat "hi" "reasoning" true false) "msg-1" VNull)
             Store.initialState,
       svc')
    /\ frames_of (trace svc') = [].
Proof.
  destruct (chat_sendMessage_effect quiet_env (fun x => x) "default" "msg-1" VNull
              (ChatInterface.mkChat "hi" "reasoning" true false)
              Store.initialState initial)
    as [_ H].
  destruct H as (c' & t & Hr & _ & _ & _ & _ & Hoff);
    [discriminate | reflexivity |].
  destruct (Hoff eq_refl) as [Hf _].
  eexists c', _. split; [exact Hr|].
  cbn [trace set_trace]. rewrite frames_of_app, Hf. reflexivity.
Defined.

End ComponentExamples.

Section MoreExamples.

Import Store WebSocketService.

(** The first socket of the fresh service opens. *)
Lemma socket_open_connects_witness :
  exists s',
    react quiet_env (SockOpen 0) (after quiet_env [CallConnect "/"]) = Some (s', Ok tt)
    /\ isConnected s' = true
    /\ promises s' !! 0 = Some Fulfilled.
Proof.
  destruct (socket_open_connects quiet_env 0
              (mkSocket "ws://localhost:3000/ws" CONNECTING 0)
              (after quiet_env [CallConnect "/"]) eq_refl eq_refl eq_refl)
    as (s' & t & Hr & _ & _ & _ & _ & Hpassive).
  destruct (Hpassive (fun _ _ => eq_refl)) as (Hc & _ & _ & _ & Hp).
  exists s'. split; [exact Hr|]. split; [exact Hc|]. apply Hp. reflexivity.
Defined.

(** A clean close of the open connection. *)
Lemma clean_close_schedules_nothing_witness :
  exists s',
    onclose quiet_env 1000 "Client disconnect" opened = (s', Ok tt)
    /\ timers s' = []
    /\ reconnectAttempts s' = 0.
Proof.
  destruct (clean_close_schedules_nothing quiet_env "Client disconnect" opened)
    as (s' & t & Hc & _ & Hn & _ & _ & Hp).
  destruct (Hp (fun _ _ => eq_refl)) as (_ & Ht & _).
  exists s'. split; [exact Hc|]. split; [rewrite Ht | rewrite Hn]; reflexivity.
Defined.

(** [stopReasoning] on an open connection and on the fresh service. *)
Lemma senders_send_at_most_one_frame_witness :
  (exists t o,
     send_intent quiet_env StopReasoning opened
     = (set_trace (trace opened ++ t) opened, Ok tt)
     /\ t = [Sent 0 "stop_reasoning" (VObj o)])
  /\ (exists t,
        send_intent quiet_env StopReasoning initial
        = (set_trace (trace initial ++ t) initial, Ok tt)
        /\ frames_of t = []).
Proof.
  split.
  - destruct (senders_send_at_most_one_frame quiet_env StopReasoning opened)
      as (t & Hs & Hon & _).
    destruct (Hon eq_refl) as (sock & o & Hws & Ht & _).
    exists t, o. split; [exact Hs|]. rewrite Ht.
    vm_compute in Hws. by injection Hws as <-.
  - destruct (senders_send_at_most_one_frame quiet_env StopReasoning initial)
      as (t & Hs & _ & Hoff).
    exists t. split; [exact Hs|]. by rewrite (Hoff eq_refl).
Defined.

(** Loading flags and notifications do not reach the persisted snapshot. *)
Lemma partialize_drops_volatile_state_witness :
  partialize (setLoading "chat" true initialState) = partialize initialState
  /\ partialize (addNotification sample_notification "n-1" VNull initialState)
     = partialize initialState.
Proof.
  destruct (partialize_drops_volatile_state initialState)
    as (_ & _ & _ & _ & _ & _ & _ & Hl & Hn & _).
  split; [apply Hl | apply Hn].
Defined.

End MoreExamples.
